(** * Transfer-learning notebooks: the local computations, embedded and verified

    The notebooks of this repository are thin orchestration over Keras and the
    Azure ML SDK.  What they compute locally is embedded here function by
    function:

    - [Enumerator.create_image_list]  (Sandbox/TrainingCodeSnippets.ipynb)
    - [Generator.ImageGenerator] with [__len__], [__getitem__],
      [__load_images], and [ResNetFeaturizer.extract]
    - the dataset-preparation cell of the Sandbox notebook
    - the flag block of the generated [train.py]
    - the compute-target [try]/[except] cells
    - the hyperdrive grid and run configuration.

    Python integers are [Z], Python lists and tuples are [list], a [dict] is a
    [gmap], a raised exception is the [Raise] branch of [result]. *)

From Stdlib Require Import Ascii ZArith QArith Qcanon.
From stdpp Require Import gmap strings list sorting pretty.

Local Open Scope Z_scope.

(** ** Python primitives used by the notebooks *)
Module Py.

(** An exception instance: its class and the classes it inherits from. *)
Record exn := Exn { exn_class : string; exn_bases : list string }.

(** [isinstance(e, c)], which is what an [except c:] clause tests. *)
Definition isinstance (e : exn) (c : string) : bool :=
  bool_decide (c = exn_class e ∨ c ∈ exn_bases e).

Definition ZeroDivisionError : exn :=
  Exn "ZeroDivisionError" ["ArithmeticError"; "Exception"; "BaseException"]%string.
Definition ValueError : exn :=
  Exn "ValueError" ["Exception"; "BaseException"]%string.
Definition FileNotFoundError : exn :=
  Exn "FileNotFoundError" ["OSError"; "Exception"; "BaseException"]%string.
Definition KeyError : exn :=
  Exn "KeyError" ["LookupError"; "Exception"; "BaseException"]%string.

(** The outcome of evaluating an expression: a value or a raised exception. *)
Inductive result (A : Type) : Type :=
| Ok (a : A)
| Raise (e : exn).
Arguments Ok {A} a.
Arguments Raise {A} e.

Definition bind {A B} (m : result A) (k : A → result B) : result B :=
  match m with
  | Ok a => k a
  | Raise e => Raise e
  end.

Global Instance result_bind : MBind result := λ A B k m, bind m k.
Global Instance result_ret : MRet result := λ A a, Ok a.

Definition is_ok {A} (m : result A) : bool :=
  match m with Ok _ => true | Raise _ => false end.

(** [len(l)] *)
Definition len {A} (l : list A) : Z := Z.of_nat (length l).

(** [a // b]: floor division; [Z.div] rounds the same way. *)
Definition floordiv (a b : Z) : result Z :=
  if decide (b = 0) then Raise ZeroDivisionError else Ok (a `div` b).

(** How a slice bound is clamped against the length (step 1). *)
Definition slice_index (n i : Z) : Z :=
  if decide (i < 0) then Z.max (i + n) 0 else Z.min i n.

(** [l[lo:hi]] *)
Definition slice {A} (l : list A) (lo hi : Z) : list A :=
  let a := slice_index (len l) lo in
  let b := slice_index (len l) hi in
  take (Z.to_nat (b - a)) (drop (Z.to_nat a) l).

(** [range(n)] *)
Definition range (n : Z) : list Z := seqZ 0 n.

(** [l.sort()] on a list of [str]: ascending in the order of [str.__lt__],
    which compares code point by code point.  On the bytes of a string this
    is [String.le]; the sorted arrangement of a list is unique for a total
    antisymmetric order, so the merge sort below returns what Python's
    sort returns. *)
Definition sort (l : list string) : list string := merge_sort String.le l.

(** [{key: value for (key, value) in items}]: a later item with the same
    key overwrites an earlier one.  (The items come from [zip(xs, ys)],
    which stops at the shorter argument as the [zip] of lists does.) *)
Definition dict_of {V} (items : list (string * V)) : gmap string V :=
  foldl (λ d kv, <[kv.1 := kv.2]> d) ∅ items.

(** [d[k]] *)
Definition getitem {V} (d : gmap string V) (k : string) : result V :=
  match d !! k with
  | Some v => Ok v
  | None => Raise KeyError
  end.

(** [s.startswith('/')] and [s.endswith('/')] *)
Definition startswith_sep (s : string) : bool :=
  match s with
  | String c _ => bool_decide (c = "/"%char)
  | EmptyString => false
  end.
Fixpoint endswith_sep (s : string) : bool :=
  match s with
  | EmptyString => false
  | String c EmptyString => bool_decide (c = "/"%char)
  | String _ rest => endswith_sep rest
  end.

(** One round of the loop of [posixpath.join]. *)
Definition join_step (path b : string) : string :=
  if startswith_sep b then b
  else if bool_decide (path = EmptyString) || endswith_sep path
       then (path +:+ b)%string
       else (path +:+ "/" +:+ b)%string.

(** [os.path.join(a, *p)] *)
Definition os_path_join (a : string) (p : list string) : string :=
  foldl join_step a p.

(** What iterating [zip] yields when it is called on a star-unpacked list
    of 2-tuples: nothing at all when the list is empty (the call has no
    argument then), otherwise the tuple of first components and the tuple
    of second components. *)
Inductive unzipped (A B : Type) : Type :=
| NoColumns
| TwoColumns (firsts : list A) (seconds : list B).
Arguments NoColumns {A B}.
Arguments TwoColumns {A B} firsts seconds.

Definition zip_star {A B} (pairs : list (A * B)) : unzipped A B :=
  match pairs with
  | [] => NoColumns
  | _ :: _ => TwoColumns (pairs.*1) (pairs.*2)
  end.

(** How many tuples the iterator yields. *)
Definition yielded {A B} (u : unzipped A B) : nat :=
  match u with NoColumns => 0 | TwoColumns _ _ => 2 end.

(** [a, b = u]: a two-target unpacking. *)
Definition unpack2 {A B} (u : unzipped A B) : result (list A * list B) :=
  match u with
  | TwoColumns a b => Ok (a, b)
  | NoColumns => Raise ValueError
  end.

(** Sequential evaluation of a list of computations, left to right. *)
Fixpoint sequence {A} (ms : list (result A)) : result (list A) :=
  match ms with
  | [] => Ok []
  | m :: ms' => bind m (λ a, bind (sequence ms') (λ r, Ok (a :: r)))
  end.

End Py.

(** ** The batch generator and the featurizer (Sandbox notebook) *)
Module Generator.
Import Py.

Section WithImages.
(** What [image.load_img] returns, and the array of one image. *)
Context {PIL Img : Type}.
(** [image.load_img(pathname, target_size=(224,224,3))]: fails on an
    unreadable file. *)
Variable load_img : string → result PIL.
(** [image.img_to_array] *)
Variable img_to_array : PIL → Img.

(** The attributes set by [ImageGenerator.__init__]. *)
Record ImageGenerator := {
  image_list : list string;
  preprocess_fn : option (list Img → list Img);
  batch_size : Z
}.

(** [ImageGenerator(image_list, preprocess_fn=None, batch_size=64)] *)
Definition init (image_list : list string)
    (preprocess_fn : option (list Img → list Img))
    (batch_size : option Z) : ImageGenerator :=
  {| image_list := image_list;
     preprocess_fn := preprocess_fn;
     batch_size := default 64 batch_size |}.

(** [__len__] *)
Definition __len__ (self : ImageGenerator) : result Z :=
  floordiv (len (image_list self)) (batch_size self).

(** The [for] loop of [__load_images], appending to [images]. *)
Fixpoint load_loop (pathnames : list string) (images : list Img)
    : result (list Img) :=
  match pathnames with
  | [] => Ok images
  | pathname :: rest =>
      img ← load_img pathname ;
      load_loop rest (images ++ [img_to_array img])
  end.

(** [im] is the array the loop appends for the path [p]. *)
Definition loads (p : string) (im : Img) : Prop :=
  ∃ v, load_img p = Ok v ∧ im = img_to_array v.

(** [__load_images].  [preprocess_fn] is taken as a total function of the
    array of a batch, which is what it is on a batch of at least one loaded
    image; a library function such as [resnet50.preprocess_input] may raise
    on the array of an empty batch, so what is stated of a batch that can be
    empty is stated for generators without [preprocess_fn]. *)
Definition __load_images (self : ImageGenerator) (pathnames : list string)
    : result (list Img) :=
  images ← load_loop pathnames [] ;
  match preprocess_fn self with
  | Some f => Ok (f images)
  | None => Ok images
  end.

(** The last two statements of [__load_images]. *)
Definition preprocessed (self : ImageGenerator) (images : list Img)
    : list Img :=
  match preprocess_fn self with
  | Some f => f images
  | None => images
  end.

(** The first line of [__getitem__]: the slice of path names. *)
Definition pathnames_of (self : ImageGenerator) (index : Z) : list string :=
  slice (image_list self)
        (index * batch_size self) ((index + 1) * batch_size self).

(** [__getitem__] *)
Definition __getitem__ (self : ImageGenerator) (index : Z)
    : result (list Img) :=
  __load_images self (pathnames_of self index).

(** The [Sequence] protocol as [predict_generator] drives it: batch
    [0], [1], ..., [len(generator) - 1], each requested once, in order. *)
Definition emitted_batches (self : ImageGenerator)
    : result (list (list Img)) :=
  steps ← __len__ self ;
  sequence (__getitem__ self <$> range steps).

(** The path names handed to the loader over a whole pass. *)
Definition processed_pathnames (self : ImageGenerator)
    : result (list string) :=
  steps ← __len__ self ;
  Ok (concat (pathnames_of self <$> range steps)).

(** *** [ResNetFeaturizer] *)

Context {Feature : Type}.
(** [resnet50.preprocess_input] on an array of images. *)
Variable preprocess_input : list Img → list Img.
(** One forward pass of [base_model] on a batch: an array with one row of
    features per image of the batch. *)
Variable predict_on_batch : list Img → list Feature.

(** [Model.predict_generator(generator)]: the outputs of the batches,
    concatenated along the first axis. *)
Definition predict_generator (generator : ImageGenerator)
    : result (list Feature) :=
  batches ← emitted_batches generator ;
  Ok (concat (predict_on_batch <$> batches)).

(** [ResNetFeaturizer.extract] *)
Definition extract (image_list : list string) : result (list Feature) :=
  let image_generator := init image_list (Some preprocess_input) None in
  predict_generator image_generator.

End WithImages.

Arguments ImageGenerator : clear implicits.

End Generator.

(** ** The image enumerator (Sandbox notebook) *)
Module Enumerator.
Import Py.

Section WithFilesystem.
(** [os.listdir]: the entry names of a directory, in the order the
    operating system gives them, or an [OSError]. *)
Variable os_listdir : string → result (list string).

(** The items produced for one [folder] by the inner [for] clause. *)
Definition labeled_images_of (img_dir : string)
    (label_map : gmap string Z) (folder : string)
    : result (list (string * Z)) :=
  images ← os_listdir (os_path_join img_dir [folder]) ;
  sequence ((λ image,
               label ← getitem label_map folder ;
               Ok (os_path_join img_dir [folder; image], label))
            <$> images).

(** The list comprehension building [labeled_image_list]. *)
Fixpoint labeled_images (img_dir : string) (label_map : gmap string Z)
    (folders : list string) : result (list (string * Z)) :=
  match folders with
  | [] => Ok []
  | folder :: rest =>
      items ← labeled_images_of img_dir label_map folder ;
      more ← labeled_images img_dir label_map rest ;
      Ok (items ++ more)
  end.

(** The [label_map] built by the first four lines of
    [create_image_list] from the listing of [img_dir]. *)
Definition label_map_of (listing : list string) : gmap string Z :=
  let folders := sort listing in
  let indexes := range (len folders) in
  dict_of (zip folders indexes).

(** The label column when the images come class by class: for the [i]-th
    folder, as many copies of [k + i] as [images_of] has entries for it. *)
Definition label_blocks (images_of : string → list string) (k : nat)
    (folders : list string) : list Z :=
  concat (imap (λ i folder,
                  replicate (length (images_of folder)) (Z.of_nat (k + i)))
               folders).

(** The pairs of the comprehension, written out from the listings. *)
Definition pairs_of (img_dir : string) (images_of : string → list string)
    (label_map : gmap string Z) (folders : list string) : list (string * Z) :=
  folders ≫= λ folder,
    (λ image, (os_path_join img_dir [folder; image],
               default 0 (label_map !! folder))) <$> images_of folder.

(** [create_image_list] *)
Definition create_image_list (img_dir : string)
    : result (unzipped string Z) :=
  folders ← os_listdir img_dir ;
  let folders := sort folders in
  let indexes := range (len folders) in
  let label_map := dict_of (zip folders indexes) in
  labeled_image_list ← labeled_images img_dir label_map folders ;
  Ok (zip_star labeled_image_list).

End WithFilesystem.

End Enumerator.

(** ** The dataset-preparation cell (Sandbox notebook) *)
Module Sandbox.
Import Py.

(** The four lists returned by [train_test_split]. *)
Record Split := {
  train_imgs : list string;
  valid_imgs : list string;
  train_labels : list Z;
  valid_labels : list Z
}.

(** The variables of the notebook after the cell has run. *)
Record Datasets (Feature : Type) := {
  ds_split : Split;
  ds_train_features : list Feature;
  ds_valid_features : list Feature;
  ds_train_labels : list Z;
  ds_valid_labels : list Z
}.
Arguments ds_split {Feature} d.
Arguments ds_train_features {Feature} d.
Arguments ds_valid_features {Feature} d.
Arguments ds_train_labels {Feature} d.
Arguments ds_valid_labels {Feature} d.

Section WithFeaturizer.
Context {PIL Img Feature : Type}.
Variable load_img : string → result PIL.
Variable img_to_array : PIL → Img.
Variable preprocess_input : list Img → list Img.
Variable predict_on_batch : list Img → list Feature.
Variable os_listdir : string → result (list string).
(** [train_test_split(img_list, label_list, test_size=0.15,
    random_state=0, stratify=label_list)] *)
Variable train_test_split : list string → list Z → result Split.

Definition featurizer_extract : list string → result (list Feature) :=
  Generator.extract load_img img_to_array preprocess_input predict_on_batch.

(** The cell from [featurizer.extract(train_imgs)] to its end. *)
Definition featurize (s : Split) : result (Datasets Feature) :=
  train_features ← featurizer_extract (train_imgs s) ;
  valid_features ← featurizer_extract (valid_imgs s) ;
  let train_labels := slice (train_labels s) 0 (len train_features) in
  let valid_labels := slice train_labels 0 (len valid_features) in
  Ok {| ds_split := s;
        ds_train_features := train_features;
        ds_valid_features := valid_features;
        ds_train_labels := train_labels;
        ds_valid_labels := valid_labels |}.

(** The whole cell. *)
Definition prepare (img_dir : string) : result (Datasets Feature) :=
  columns ← Enumerator.create_image_list os_listdir img_dir ;
  lists ← unpack2 columns ;
  s ← train_test_split lists.1 lists.2 ;
  featurize s.

End WithFeaturizer.

End Sandbox.

(** ** The flag block of the generated [train.py] *)
Module TrainScript.

Inductive flag_type := TInteger | TFloat | TString.

Inductive flag_value :=
| VInt (z : Z)
| VFloat (q : Qc)
| VString (s : string).

Record flag := {
  flag_name : string;
  flag_kind : flag_type;
  flag_default : flag_value;
  flag_help : string
}.

(** [tf.app.flags.DEFINE_integer], [DEFINE_float], [DEFINE_string] *)
Definition DEFINE_integer (name : string) (default : Z) (help : string) :=
  {| flag_name := name; flag_kind := TInteger;
     flag_default := VInt default; flag_help := help |}.
Definition DEFINE_float (name : string) (default : Qc) (help : string) :=
  {| flag_name := name; flag_kind := TFloat;
     flag_default := VFloat default; flag_help := help |}.
Definition DEFINE_string (name : string) (default : string) (help : string) :=
  {| flag_name := name; flag_kind := TString;
     flag_default := VString default; flag_help := help |}.

(** The decimal literal [0.01]. *)
Definition lit_0_01 : Qc := Q2Qc (1 # 100).

(** The block of 02-train/02-train.ipynb. *)
Definition flags_train : list flag := [
  DEFINE_integer "batch_size" 32 "Number of images per batch";
  DEFINE_integer "epochs" 10 "Number of epochs to train";
  DEFINE_integer "units" 512 "Number of epochs to train";
  DEFINE_float "l1" lit_0_01 "l1 regularization";
  DEFINE_float "l2" lit_0_01 "l2 regularization";
  DEFINE_string "data_folder" "./bottleneck"
                "Folder with bottleneck features and labels";
  DEFINE_string "train_file_name" "aerial_bottleneck_train.h5"
                "Training file name";
  DEFINE_string "valid_file_name" "aerial_bottleneck_valid.h5"
                "Validation file name"
].

(** The block of the hyper-parameter tuning notebook. *)
Definition flags_tune : list flag := [
  DEFINE_integer "batch_size" 32 "Number of images per batch";
  DEFINE_integer "epochs" 10 "Number of epochs to train";
  DEFINE_integer "units" 512 "Number of epochs to train";
  DEFINE_float "l1" lit_0_01 "l1 regularization";
  DEFINE_float "l2" lit_0_01 "l2 regularization";
  DEFINE_string "data_folder" "./bottleneck"
                "Folder with bottleneck features and labels";
  DEFINE_string "train_file_name" "aerial_bottleneck_train.h5"
                "Training file name";
  DEFINE_string "valid_file_name" "aerial_bottleneck_valid.h5"
                "Validation file name"
].

(** The command-line switch of a flag. *)
Definition switch (f : flag) : string := ("--" +:+ flag_name f)%string.

(** What the command line shows of a flag: switch, type and default. *)
Definition surface (fs : list flag) : list (string * flag_type * flag_value) :=
  (λ f, (switch f, flag_kind f, flag_default f)) <$> fs.

End TrainScript.

(** ** The compute-target cells *)
Module ComputeSetup.
Import Py.

(** The arguments of [provisioning_configuration]. *)
Record provisioning := {
  vm_size : string;
  autoscale_enabled : option bool;
  cluster_min_nodes : option Z;
  cluster_max_nodes : option Z
}.

(** The calls a cell makes on the workspace and what it prints. *)
Inductive event :=
| Lookup (name : string)
| Printed (line : string)
| Create (name : string) (config : provisioning)
| WaitForCompletion.

(** A cell: it extends the log of events and ends with a value or with an
    exception that reaches the top level of the notebook. *)
Definition cell (A : Type) : Type := list event → list event * result A.

Global Instance cell_ret : MRet cell := λ A a log, (log, Ok a).
Global Instance cell_bind : MBind cell := λ A B k m log,
  match m log with
  | (log', Ok a) => k a log'
  | (log', Raise e) => (log', Raise e)
  end.

(** An SDK call: logged, then its outcome. *)
Definition call {A} (ev : event) (outcome : result A) : cell A :=
  λ log, (log ++ [ev], outcome).

Definition print (line : string) : cell unit := call (Printed line) (Ok ()).

(** [try: body except cls: handler] *)
Definition try_except {A} (body : cell A) (cls : string) (handler : cell A)
    : cell A :=
  λ log,
    match body log with
    | (log', Raise e) =>
        if isinstance e cls then handler log' else (log', Raise e)
    | done => done
    end.

Definition run {A} (c : cell A) : list event * result A := c [].

Definition is_create (ev : event) : bool :=
  match ev with Create _ _ => true | _ => false end.

(** Was [create] called at all? *)
Definition created (log : list event) : bool := existsb is_create log.

Section WithWorkspace.
Context {Target : Type}.
(** The constructor that looks a target up by name, [create], and
    [wait_for_completion], as the workspace answers them. *)
Variable lookup : string → result Target.
Variable create : string → provisioning → result Target.
Variable wait_for_completion : Target → result unit.
(** [target.name], [type(target) is BatchAiCompute],
    [target.status.serialize()] *)
Variable name_of : Target → string.
Variable is_batchai : Target → bool.
Variable status_of : Target → string.

(** 02-train/02-train.ipynb *)
Definition setup_dsvm : cell Target :=
  let compute_target_name := "gpudsvm"%string in
  let compute_target_type := "Standard_NC6"%string in
  try_except
    (dsvm_compute ← call (Lookup compute_target_name)
                         (lookup compute_target_name) ;
     _ ← print ("Found existing DSVM: " +:+ name_of dsvm_compute)%string ;
     mret dsvm_compute)
    "ComputeTargetException"
    (let dsvm_config :=
       {| vm_size := compute_target_type; autoscale_enabled := None;
          cluster_min_nodes := None; cluster_max_nodes := None |} in
     dsvm_compute ← call (Create compute_target_name dsvm_config)
                         (create compute_target_name dsvm_config) ;
     _ ← call WaitForCompletion (wait_for_completion dsvm_compute) ;
     mret dsvm_compute).

(** The hyper-parameter tuning notebook; [ws_name] is [ws.name]. *)
Definition setup_batchai (ws_name : string) : cell Target :=
  let batchai_cluster_name := (ws_name +:+ "gpucls")%string in
  let vim_size := "STANDARD_NC6"%string in
  try_except
    (compute_target ← call (Lookup batchai_cluster_name)
                           (lookup batchai_cluster_name) ;
     _ ← (if is_batchai compute_target
          then print ("found compute target " +:+ batchai_cluster_name
                      +:+ ", just use it.")%string
          else print (batchai_cluster_name +:+
                      " exists but it is not a Batch AI cluster. Please choose a different name.")%string) ;
     mret compute_target)
    "ComputeTargetException"
    (_ ← print "creating a new compute target..." ;
     let compute_config :=
       {| vm_size := vim_size; autoscale_enabled := Some true;
          cluster_min_nodes := Some 1; cluster_max_nodes := Some 4 |} in
     compute_target ← call (Create batchai_cluster_name compute_config)
                           (create batchai_cluster_name compute_config) ;
     _ ← call WaitForCompletion (wait_for_completion compute_target) ;
     _ ← print (status_of compute_target) ;
     mret compute_target).

End WithWorkspace.

End ComputeSetup.

(** ** The hyperdrive configuration *)
Module HyperDrive.

Inductive hvalue :=
| HInt (z : Z)
| HFloat (q : Qc).

Global Instance hvalue_eq_dec : EqDecision hvalue.
Proof. solve_decision. Defined.

(** [choice(v1, v2, ...)] *)
Definition choice (values : list hvalue) : list hvalue := values.

(** The dictionary given to [GridParameterSampling]. *)
Definition space := list (string * list hvalue).

(** One combination: a value for every hyperparameter. *)
Definition combination := list (string * hvalue).

Definition ps : space := [
  ("--units", choice [HInt 256; HInt 512]);
  ("--l1", choice [HFloat (Q2Qc (1 # 1000)); HFloat (Q2Qc (1 # 100));
                   HFloat (Q2Qc (5 # 100))]);
  ("--l2", choice [HFloat (Q2Qc (1 # 1000)); HFloat (Q2Qc (1 # 100));
                   HFloat (Q2Qc (5 # 100))])
]%string.

Inductive metric_goal := MAXIMIZE | MINIMIZE.
Inductive termination_policy := NoTerminationPolicy.

Record HyperDriveRunConfig := {
  hyperparameter_sampling : space;
  policy : termination_policy;
  primary_metric_name : string;
  primary_metric_goal : metric_goal;
  max_total_runs : Z;
  max_concurrent_runs : Z
}.

Definition htc : HyperDriveRunConfig := {|
  hyperparameter_sampling := ps;
  policy := NoTerminationPolicy;
  primary_metric_name := "validation_acc";
  primary_metric_goal := MAXIMIZE;
  max_total_runs := 12;
  max_concurrent_runs := 4
|}.

(** Grid sampling: every way of choosing one value per hyperparameter. *)
Fixpoint grid (sp : space) : list combination :=
  match sp with
  | [] => [[]]
  | (name, values) :: rest =>
      v ← values ; c ← grid rest ; [(name, v) :: c]
  end.

(** What the tuning service may do with a configuration: it submits
    combinations of the grid, none of them twice, and stops at
    [max_total_runs] at the latest. *)
Definition admissible (cfg : HyperDriveRunConfig) (runs : list combination)
    : Prop :=
  NoDup runs ∧ runs ⊆ grid (hyperparameter_sampling cfg) ∧
  (Z.of_nat (length runs) ≤ max_total_runs cfg)%Z.

(** A service that walks the grid in order until the cap is reached. *)
Definition submitted (cfg : HyperDriveRunConfig) : list combination :=
  take (Z.to_nat (max_total_runs cfg)) (grid (hyperparameter_sampling cfg)).

End HyperDrive.

(** ** Directory entry names and the paths built from them *)
Module Paths.
Import Py.

(** No ['/'] occurs in the string. *)
Fixpoint no_sep (s : string) : bool :=
  match s with
  | EmptyString => true
  | String c rest => negb (bool_decide (c = "/"%char)) && no_sep rest
  end.

(** What a directory listing can hold: a name that is not empty and has no
    separator in it. *)
Definition entry_name (s : string) : bool :=
  negb (bool_decide (s = EmptyString)) && no_sep s.

(** What [os.path.join] puts in front of the first entry name joined to
    [dir]: [dir] itself when it is empty or ends with the separator, else
    [dir] and a separator. *)
Definition base (dir : string) : string :=
  if bool_decide (dir = EmptyString) || endswith_sep dir
  then dir else (dir +:+ "/")%string.

End Paths.

(** ** The training cell of the Sandbox notebook *)
Module Training.
Import Py.

(** [batch_size = 64], [steps_per_epoch = len(train_features)//batch_size],
    [validation_steps = len(valid_features)//batch_size]. *)
Definition steps {Feature} (train_features valid_features : list Feature)
    : result (Z * Z) :=
  let batch_size := 64 in
  steps_per_epoch ← floordiv (len train_features) batch_size ;
  validation_steps ← floordiv (len valid_features) batch_size ;
  Ok (steps_per_epoch, validation_steps).

End Training.

(** ** The epoch callback of [train.py] *)
Module Callback.
Import Py.

Definition TypeError : exn :=
  Exn "TypeError" ["Exception"; "BaseException"]%string.

(** [float(x)] for what [logs.get(key)] returns: the number under the key,
    or [None] when the key is missing, which [float] refuses. *)
Definition float (x : option Qc) : result Qc :=
  match x with
  | Some v => Ok v
  | None => Raise TypeError
  end.

(** One call of [run.log(name=..., value=...)]. *)
Record logged := Logged { metric_name : string; metric_value : Qc }.

(** [RunCallback.on_epoch_end(batch, logs)]: the metrics of the run after
    the call (they start as [history]) and how the call ends. *)
Definition on_epoch_end (logs : gmap string Qc) (history : list logged)
    : list logged * result unit :=
  match float (logs !! "acc"%string) with
  | Raise e => (history, Raise e)
  | Ok acc =>
      let history := history ++ [Logged "training_acc" acc] in
      match float (logs !! "val_acc"%string) with
      | Raise e => (history, Raise e)
      | Ok val_acc =>
          (history ++ [Logged "validation_acc" val_acc], Ok ())
      end
  end.

(** What one epoch adds to the metrics of the run when its [logs] hold
    both accuracies. *)
Definition entries_of (logs : gmap string Qc) : list logged :=
  match logs !! "acc"%string, logs !! "val_acc"%string with
  | Some acc, Some val_acc =>
      [Logged "training_acc" acc; Logged "validation_acc" val_acc]
  | _, _ => []
  end.

(** The callback over the epochs of one [fit]: it stops at the first call
    that raises. *)
Fixpoint on_epochs (epochs : list (gmap string Qc)) (history : list logged)
    : list logged * result unit :=
  match epochs with
  | [] => (history, Ok ())
  | logs :: rest =>
      match on_epoch_end logs history with
      | (history', Ok _) => on_epochs rest history'
      | failed => failed
      end
  end.

End Callback.

(** ** The arguments the notebooks give to the script *)
Module Submission.

(** A value of [script_params]: a number, or a reference to a folder of
    the datastore ([ds.path(...).as_download()] or [.as_mount()]). *)
Inductive data_mode := as_download | as_mount.
Inductive param :=
| PInt (z : Z)
| PFloat (q : Qc)
| PData (path : string) (mode : data_mode).

(** 02-train/02-train.ipynb *)
Definition script_params_train : list (string * param) := [
  ("--data_folder", PData "bottleneck" as_download);
  ("--l1", PFloat (Q2Qc (1 # 1000)));
  ("--l2", PFloat (Q2Qc (1 # 1000)));
  ("--units", PInt 512);
  ("--epochs", PInt 75)
]%string.

(** The hyper-parameter tuning notebook. *)
Definition script_params_tune : list (string * param) := [
  ("--data_folder", PData "bottleneck" as_mount);
  ("--epochs", PInt 50)
]%string.

(** A sampled value as a parameter of the script. *)
Definition of_hvalue (v : HyperDrive.hvalue) : param :=
  match v with
  | HyperDrive.HInt z => PInt z
  | HyperDrive.HFloat q => PFloat q
  end.

(** The parameters of the run of one combination: those of the estimator
    and the sampled ones. *)
Definition run_params (c : HyperDrive.combination) : list (string * param) :=
  script_params_tune ++ (prod_map id of_hvalue <$> c).

(** Does the script accept the value for a flag of that type?  A folder
    of the datastore reaches the script as a path. *)
Definition accepts (kind : TrainScript.flag_type) (v : param) : bool :=
  match kind, v with
  | TrainScript.TInteger, PInt _ => true
  | TrainScript.TFloat, PFloat _ => true
  | TrainScript.TString, PData _ _ => true
  | _, _ => false
  end.

(** Is the parameter a flag the script defines, with a value of its type? *)
Definition well_formed (flags : list TrainScript.flag) (kv : string * param)
    : bool :=
  match list_find (λ f, TrainScript.switch f = kv.1) flags with
  | Some (_, f) => accepts (TrainScript.flag_kind f) kv.2
  | None => false
  end.

End Submission.

(** ** Concrete inputs *)
Module Scenario.
Import Py.

(** A loader for which every file is readable; the image is named by its
    path. *)
Definition load_any (pathname : string) : result string := Ok pathname.

(** Five images in batches of two. *)
Definition five_by_two : Generator.ImageGenerator string := {|
  Generator.image_list := ["a.png"; "b.png"; "c.png"; "d.png"; "e.png"]%string;
  Generator.preprocess_fn := None;
  Generator.batch_size := 2
|}.

(** A directory [aerial] with the classes [water] (3 images) and [forest]
    (5 images), listed in that order. *)
Definition aerial_listdir (path : string) : result (list string) :=
  if decide (path = "aerial"%string) then Ok ["water"; "forest"]%string
  else if decide (path = "aerial/water"%string)
  then Ok ["w1.png"; "w2.png"; "w3.png"]%string
  else if decide (path = "aerial/forest"%string)
  then Ok ["f1.png"; "f2.png"; "f3.png"; "f4.png"; "f5.png"]%string
  else Raise FileNotFoundError.

Definition aerial_images_of (folder : string) : list string :=
  if decide (folder = "water"%string) then ["w1.png"; "w2.png"; "w3.png"]%string
  else ["f1.png"; "f2.png"; "f3.png"; "f4.png"; "f5.png"]%string.

(** A directory [empty] without entries. *)
Definition empty_listdir (path : string) : result (list string) :=
  if decide (path = "empty"%string) then Ok [] else Raise FileNotFoundError.

(** A split of 426 images of two classes, 213 each, with
    [test_size=0.15] and [stratify]: 64 validation images (32 per class)
    and 362 training images (181 per class). *)
Definition image_name (folder : string) (i : nat) : string :=
  (folder +:+ pretty i +:+ ".png")%string.

Definition split_426 : Sandbox.Split := {|
  Sandbox.train_imgs :=
    (image_name "a/" <$> seq 0 181) ++ (image_name "b/" <$> seq 0 181);
  Sandbox.valid_imgs :=
    (image_name "b/" <$> seq 181 32) ++ (image_name "a/" <$> seq 181 32);
  Sandbox.train_labels := replicate 181 0 ++ replicate 181 1;
  Sandbox.valid_labels := replicate 32 1 ++ replicate 32 0
|}.

(** Workspaces whose targets are named by strings: one in which the
    target does not exist yet, one in which it exists, and one that cannot
    be reached. *)
Definition ComputeTargetException : exn :=
  Exn "ComputeTargetException" ["Exception"; "BaseException"]%string.
Definition ConnectionError : exn :=
  Exn "ConnectionError" ["OSError"; "Exception"; "BaseException"]%string.

Definition lookup_missing (name : string) : result string :=
  Raise ComputeTargetException.
Definition lookup_present (name : string) : result string := Ok name.
Definition lookup_unreachable (name : string) : result string :=
  Raise ConnectionError.
Definition create_named (name : string) (config : ComputeSetup.provisioning)
    : result string := Ok name.
Definition wait_done (target : string) : result unit := Ok ().

(** The five images with batch size 0. *)
Definition five_by_zero : Generator.ImageGenerator string := {|
  Generator.image_list := ["a.png"; "b.png"; "c.png"; "d.png"; "e.png"]%string;
  Generator.preprocess_fn := None;
  Generator.batch_size := 0
|}.

(** A loader for which no file is readable. *)
Definition load_none (pathname : string) : result string :=
  Raise FileNotFoundError.

(** 130 images, and 5 images. *)
Definition images_130 : list string := image_name "a/" <$> seq 0 130.
Definition images_5 : list string := image_name "a/" <$> seq 0 5.

(** The directory [aerial] on a system that lists [forest] before
    [water]. *)
Definition aerial_listdir_rev (path : string) : result (list string) :=
  if decide (path = "aerial"%string) then Ok ["forest"; "water"]%string
  else aerial_listdir path.

(** What [os.listdir] raises for a plain file. *)
Definition NotADirectoryError : exn :=
  Exn "NotADirectoryError" ["OSError"; "Exception"; "BaseException"]%string.

(** The [logs] of an epoch with both accuracies, and of one without the
    validation accuracy. *)
Definition logs_full : gmap string Qc :=
  {[ "acc"%string := Q2Qc (9 # 10); "val_acc"%string := Q2Qc (8 # 10) ]}.
Definition logs_train_only : gmap string Qc :=
  {[ "acc"%string := Q2Qc (9 # 10) ]}.

(** The first combination of the grid. *)
Definition first_combination : HyperDrive.combination := [
  ("--units", HyperDrive.HInt 256);
  ("--l1", HyperDrive.HFloat (Q2Qc (1 # 1000)));
  ("--l2", HyperDrive.HFloat (Q2Qc (1 # 1000)))
]%string.

(** A directory [bare] whose only class folder holds no image. *)
Definition bare_listdir (path : string) : result (list string) :=
  if decide (path = "bare"%string) then Ok ["water"%string]
  else if decide (path = "bare/water"%string) then Ok []
  else Raise FileNotFoundError.


(** The five images in batches of two, without [preprocess_fn], is
    [five_by_two]; the same with a loader that fails on the last image. *)
Definition load_all_but_e (pathname : string) : result string :=
  if decide (pathname = "e.png"%string) then Raise FileNotFoundError
  else Ok pathname.

(** A directory [mixed2] with a class folder, a folder that cannot be read
    and a plain file. *)
Definition PermissionError : exn :=
  Exn "PermissionError" ["OSError"; "Exception"; "BaseException"]%string.
Definition mixed2_listdir (path : string) : result (list string) :=
  if decide (path = "mixed2"%string)
  then Ok ["water"; "locked"; "README.md"]%string
  else if decide (path = "mixed2/water"%string)
  then Ok ["w1.png"; "w2.png"; "w3.png"]%string
  else if decide (path = "mixed2/locked"%string)
  then Raise PermissionError
  else if decide (path = "mixed2/README.md"%string)
  then Raise NotADirectoryError
  else Raise FileNotFoundError.

End Scenario.

(** * Properties *)

(** ** Slices and batches *)
Section SliceFacts.
Import Py.
Context {A : Type}.
Implicit Types l : list A.

Lemma slice_index_inside (n i : Z) : 0 ≤ i ≤ n → slice_index n i = i.
Proof. intros. unfold slice_index. case_decide; lia. Qed.

Lemma slice_index_beyond (n i : Z) : 0 ≤ n ≤ i → slice_index n i = n.
Proof. intros. unfold slice_index. case_decide; lia. Qed.

(** A slice with both bounds inside the list. *)
Lemma slice_inside l (lo hi : Z) :
  0 ≤ lo ≤ hi → hi ≤ len l →
  slice l lo hi = take (Z.to_nat (hi - lo)) (drop (Z.to_nat lo) l).
Proof.
  intros Hlo Hhi. unfold slice.
  rewrite !slice_index_inside by lia. done.
Qed.

(** [l[0:n]] with [n] up to the length is the prefix of length [n]. *)
Lemma slice_prefix l (n : Z) : 0 ≤ n → slice l 0 n = take (Z.to_nat n) l.
Proof.
  intros Hn. unfold slice, len.
  rewrite (slice_index_inside _ 0) by lia.
  rewrite Z.sub_0_r, Z2Nat.inj_0, drop_0.
  destruct (decide (n ≤ Z.of_nat (length l))) as [Hle|Hgt].
  - by rewrite slice_index_inside by lia.
  - rewrite slice_index_beyond by lia.
    rewrite Nat2Z.id. rewrite !take_ge; [done|lia..].
Qed.

(** The slice of batch [i] when the batch fits in the list. *)
Lemma slice_batch l (i B : Z) :
  0 < B → 0 ≤ i → (i + 1) * B ≤ len l →
  slice l (i * B) ((i + 1) * B)
  = take (Z.to_nat B) (drop (Z.to_nat i * Z.to_nat B) l).
Proof.
  intros HB Hi Hfit. rewrite slice_inside by nia.
  replace ((i + 1) * B - i * B) with B by lia.
  by rewrite Z2Nat.inj_mul by lia.
Qed.

(** Consecutive blocks of [b] elements make up a prefix. *)
Lemma concat_blocks l (b n : nat) :
  concat ((λ i, take b (drop (i * b) l)) <$> seq 0 n) = take (n * b) l.
Proof.
  induction n as [|n IH]; [by rewrite take_0|].
  rewrite seq_S, fmap_app, concat_app, IH. simpl.
  rewrite app_nil_r, take_take_drop. f_equal. lia.
Qed.

Lemma elem_of_concat (x : A) (ls : list (list A)) :
  x ∈ concat ls ↔ ∃ l, l ∈ ls ∧ x ∈ l.
Proof.
  rewrite list_elem_of_In, in_concat.
  by setoid_rewrite list_elem_of_In.
Qed.

Lemma range_seq (n : Z) : range n = Z.of_nat <$> seq 0 (Z.to_nat n).
Proof.
  unfold range, seqZ. apply list_fmap_ext. intros _ i _. lia.
Qed.
End SliceFacts.

(** ** The batch generator *)
Section GeneratorFacts.
Import Py Generator.
Context {PIL Img : Type}.
Variable load_img : string → result PIL.
Variable img_to_array : PIL → Img.
Local Abbreviation loads := (Generator.loads load_img img_to_array).
Local Abbreviation load_loop := (Generator.load_loop load_img img_to_array).
Local Abbreviation __load_images := (Generator.__load_images load_img img_to_array).
Local Abbreviation __getitem__ := (Generator.__getitem__ load_img img_to_array).
Local Abbreviation emitted_batches := (Generator.emitted_batches load_img img_to_array).
Implicit Types self : ImageGenerator Img.

Lemma load_loop_ok (pathnames : list string) : ∀ images,
  Forall (λ p, is_ok (load_img p) = true) pathnames →
  ∃ new, Forall2 loads pathnames new ∧
         load_loop pathnames images = Ok (images ++ new).
Proof.
  induction pathnames as [|p ps IH]; intros images Hall.
  - exists []. split; [constructor|]. by rewrite app_nil_r.
  - apply Forall_cons in Hall as [Hp Hps].
    destruct (load_img p) as [v|e] eqn:Hv; [|done].
    destruct (IH (images ++ [img_to_array v]) Hps) as (new & Hnew & Hrun).
    exists (img_to_array v :: new). split.
    + constructor; [by exists v|done].
    + simpl. rewrite Hv. simpl. rewrite Hrun. by rewrite <- app_assoc.
Qed.

Lemma load_images_ok self (pathnames : list string) :
  Forall (λ p, is_ok (load_img p) = true) pathnames →
  ∃ images, Forall2 loads pathnames images ∧
            __load_images self pathnames = Ok (preprocessed self images).
Proof.
  intros Hall. destruct (load_loop_ok pathnames [] Hall) as (new & Hnew & Hrun).
  exists new. split; [done|].
  unfold Generator.__load_images, preprocessed. rewrite Hrun. simpl.
  by destruct (preprocess_fn self).
Qed.

(** A failing load stops the loop with that exception. *)
Lemma load_images_is_ok self (pathnames : list string) :
  is_ok (__load_images self pathnames) = true →
  Forall (λ p, is_ok (load_img p) = true) pathnames.
Proof.
  unfold Generator.__load_images. generalize (@nil Img).
  induction pathnames as [|p ps IH]; intros acc Hok; [constructor|].
  simpl in Hok. destruct (load_img p) as [v|e] eqn:Hv; [|done].
  constructor; [by rewrite Hv|]. by apply (IH (acc ++ [img_to_array v])).
Qed.

Lemma len_ok self :
  0 < batch_size self →
  __len__ self = Ok (len (image_list self) `div` batch_size self).
Proof. intros HB. unfold __len__, floordiv. case_decide; [lia|done]. Qed.

(** The slice of a batch that the generator announces. *)
Lemma pathnames_of_block self (i : nat) :
  0 < batch_size self →
  Z.of_nat i < len (image_list self) `div` batch_size self →
  pathnames_of self (Z.of_nat i)
  = take (Z.to_nat (batch_size self))
         (drop (i * Z.to_nat (batch_size self)) (image_list self)).
Proof.
  intros HB Hi. unfold pathnames_of.
  rewrite slice_batch; [by rewrite Nat2Z.id|lia|lia|].
  pose proof (Z.mul_div_le (len (image_list self)) (batch_size self) HB).
  nia.
Qed.

Lemma processed_prefix self :
  0 < batch_size self →
  concat (pathnames_of self <$>
            range (len (image_list self) `div` batch_size self))
  = take (Z.to_nat (len (image_list self)
                    - len (image_list self) `mod` batch_size self))
         (image_list self).
Proof.
  intros HB. set (M := len (image_list self)). set (B := batch_size self).
  assert (0 ≤ M) by (unfold M, len; lia).
  assert (0 ≤ M `div` B) by (apply Z.div_pos; lia).
  rewrite range_seq, <- list_fmap_compose.
  rewrite (list_fmap_ext _ (λ i, take (Z.to_nat B)
             (drop (i * Z.to_nat B) (image_list self)))).
  - rewrite concat_blocks. f_equal.
    rewrite <- Z2Nat.inj_mul by lia. f_equal.
    pose proof (Z.div_mod M B). lia.
  - intros k i Hk. simpl. apply pathnames_of_block; [done|].
    apply lookup_seq in Hk. fold M B. lia.
Qed.

Lemma sequence_ok {A B} (f : A → result B) (g : A → B) (l : list A) :
  (∀ x, x ∈ l → f x = Ok (g x)) → sequence (f <$> l) = Ok (g <$> l).
Proof.
  induction l as [|x l IH]; intros Hf; [done|].
  rewrite !fmap_cons. cbn [sequence]. rewrite (Hf x) by left.
  rewrite IH; [done|]. intros y Hy. apply Hf. by right.
Qed.

Lemma sequence_length {A} (ms : list (result A)) (r : list A) :
  sequence ms = Ok r → length r = length ms.
Proof.
  revert r. induction ms as [|m ms IH]; intros r; simpl.
  - by intros [= <-].
  - destruct m as [a|e]; [|done]. simpl.
    destruct (sequence ms) as [r'|e]; [|done]. simpl.
    intros [= <-]. simpl. f_equal. by apply IH.
Qed.

Lemma sequence_is_ok {A} (ms : list (result A)) :
  Forall (λ m, is_ok m = true) ms → is_ok (sequence ms) = true.
Proof.
  induction 1 as [|m ms Hm _ IH]; [done|].
  simpl. destruct m; [|done]. simpl. by destruct (sequence ms).
Qed.


(** When the images of that prefix load, every announced batch is
    emitted. *)
Lemma emitted_batches_ok self :
  let L := image_list self in
  let M := len L in
  let B := batch_size self in
  0 < B →
  Forall (λ p, is_ok (load_img p) = true) (take (Z.to_nat (M - M `mod` B)) L) →
  ∃ batches, emitted_batches self = Ok batches ∧ len batches = M `div` B.
Proof.
  intros L M B HB Hload.
  assert (0 ≤ M) as HM by (unfold M, len; lia).
  pose proof (Z.div_pos M B HM HB) as Hdiv.
  pose proof (processed_prefix self HB) as Hprefix. fold L M B in Hprefix.
  unfold Generator.emitted_batches. rewrite (len_ok self HB). fold L M B.
  change (Ok (M `div` B) ≫= ?k) with (k (M `div` B)). cbv beta.
  assert (is_ok (sequence (__getitem__ self <$> range (M `div` B))) = true)
    as Hok.
  { apply sequence_is_ok, Forall_fmap, Forall_forall. intros i Hi.
    unfold compose, Generator.__getitem__.
    destruct (load_images_ok self (pathnames_of self i)) as (ims & _ & ->);
      [|done].
    apply Forall_forall. intros p Hp.
    rewrite Forall_forall in Hload. apply Hload. rewrite <- Hprefix.
    apply elem_of_concat. exists (pathnames_of self i). split; [|done].
    by apply list_elem_of_fmap_2. }
  destruct (sequence _) as [batches|e] eqn:Hseq; [|done].
  exists batches. split; [done|].
  apply sequence_length in Hseq. unfold len. rewrite Hseq.
  rewrite length_fmap. unfold range. rewrite length_seqZ. lia.
Qed.


(** C9.  For a batch size [B > 0] and an index [0 <= i < len(L) // B], the
    slice taken by [__getitem__] has exactly [B] path names, namely
    [L[i*B]], ..., [L[(i+1)*B - 1]] in that order, and the batch is the
    array of the [B] images loaded from them, one per path name, in the same
    order (handed to [preprocess_fn] when there is one). *)
Theorem batch_is_its_block self (i : Z) :
  let L := image_list self in
  let B := batch_size self in
  0 < B → 0 ≤ i < len L `div` B →
  Forall (λ p, is_ok (load_img p) = true) (pathnames_of self i) →
  length (pathnames_of self i) = Z.to_nat B ∧
  (∀ k : nat, (k < Z.to_nat B)%nat →
     ∃ p, L !! (Z.to_nat (i * B) + k)%nat = Some p ∧
          pathnames_of self i !! k = Some p) ∧
  ∃ images, length images = Z.to_nat B ∧
            Forall2 loads (pathnames_of self i) images ∧
            __getitem__ self i = Ok (preprocessed self images).
Proof.
  intros L B HB Hi Hload.
  pose proof (Z.mul_div_le (len L) B HB) as Hfit.
  assert (pathnames_of self i
          = take (Z.to_nat B) (drop (Z.to_nat (i * B)) L)) as Hslice.
  { rewrite <- (Z2Nat.id i) at 1 by lia.
    rewrite pathnames_of_block; [|done|rewrite Z2Nat.id by lia; apply Hi].
    by rewrite Z2Nat.inj_mul by lia. }
  assert (length (pathnames_of self i) = Z.to_nat B) as Hsize.
  { rewrite Hslice, length_take, length_drop. unfold len in *. nia. }
  split; [done|]. split.
  - intros k Hk.
    destruct (lookup_lt_is_Some_2 (pathnames_of self i) k) as [p Hp]; [lia|].
    exists p. split; [|done].
    rewrite Hslice, lookup_take_lt, lookup_drop in Hp; done.
  - destruct (load_images_ok self _ Hload) as (images & Himgs & Hrun).
    exists images. split; [|done].
    apply Forall2_length in Himgs. lia.
Qed.

End GeneratorFacts.

(** ** The image enumerator *)
Section DictFacts.
Import Py.
Context {V : Type}.
Implicit Types items : list (string * V).

Lemma dict_of_snoc items (k : string) (v : V) :
  dict_of (items ++ [(k, v)]) = <[k := v]> (dict_of items).
Proof. unfold dict_of. by rewrite foldl_snoc. Qed.

(** Whatever the dictionary holds was one of the items. *)
Lemma dict_of_lookup_Some items (k : string) (v : V) :
  dict_of items !! k = Some v → (k, v) ∈ items.
Proof.
  induction items as [|[k' v'] items IH] using rev_ind; [done|].
  rewrite dict_of_snoc, elem_of_app, list_elem_of_singleton.
  destruct (decide (k' = k)) as [->|Hne].
  - rewrite lookup_insert_eq. intros [= ->]. by right.
  - rewrite lookup_insert_ne by done. auto.
Qed.

(** With pairwise different keys every item is found under its key. *)
Lemma dict_of_lookup_NoDup items (k : string) (v : V) :
  NoDup items.*1 → (k, v) ∈ items → dict_of items !! k = Some v.
Proof.
  induction items as [|[k' v'] items IH] using rev_ind; [by inversion 2|].
  rewrite fmap_app, NoDup_app, dict_of_snoc, elem_of_app,
    list_elem_of_singleton.
  intros (Hnd & Hfresh & _) [Hin|[= -> ->]].
  - rewrite lookup_insert_ne; [by apply IH|].
    intros ->. apply (Hfresh k); [|by left].
    apply list_elem_of_fmap. by exists (k, v).
  - by rewrite lookup_insert_eq.
Qed.
End DictFacts.

Section EnumeratorFacts.
Import Py Enumerator.
Variable os_listdir : string → result (list string).
Local Abbreviation labeled_images_of := (Enumerator.labeled_images_of os_listdir).
Local Abbreviation labeled_images := (Enumerator.labeled_images os_listdir).
Local Abbreviation create_image_list := (Enumerator.create_image_list os_listdir).

Lemma sort_Permutation (l : list string) : sort l ≡ₚ l.
Proof. apply merge_sort_Permutation. Qed.

Lemma sort_Sorted (l : list string) : Sorted String.le (sort l).
Proof. apply (Sorted_merge_sort String.le). Qed.

(** The sorted arrangement does not depend on the order of the listing. *)
Lemma sort_unique (l1 l2 : list string) : l1 ≡ₚ l2 → sort l1 = sort l2.
Proof.
  intros Hperm. apply (Sorted_unique String.le); [apply sort_Sorted..|].
  by rewrite !sort_Permutation.
Qed.

Lemma zip_range_lookup (l : list string) (i : nat) (x : string) (z : Z) :
  zip l (range (len l)) !! i = Some (x, z) ↔ l !! i = Some x ∧ z = Z.of_nat i.
Proof.
  rewrite lookup_zip_with_Some. unfold range, len. split.
  - intros (x' & z' & [= -> ->] & Hx & Hz).
    apply lookup_seqZ in Hz. split; [done|lia].
  - intros [Hx ->]. exists x, (Z.of_nat i). split_and!; [done..|].
    apply lookup_seqZ. split; [lia|].
    apply lookup_lt_Some in Hx. lia.
Qed.

Lemma zip_range_keys (l : list string) : (zip l (range (len l))).*1 = l.
Proof.
  apply fst_zip. unfold range, len. rewrite length_seqZ. lia.
Qed.

(** The label map sends the folder at position [i] of the sorted listing to
    [i], and holds nothing else. *)
Lemma label_map_lookup (listing : list string) (folder : string) (z : Z) :
  NoDup listing →
  label_map_of listing !! folder = Some z
  ↔ ∃ i : nat, z = Z.of_nat i ∧ sort listing !! i = Some folder.
Proof.
  intros Hnd. unfold label_map_of. split.
  - intros Hin%dict_of_lookup_Some.
    apply list_elem_of_lookup in Hin as [i Hi].
    apply zip_range_lookup in Hi as [Hi ->]. by exists i.
  - intros (i & -> & Hi). apply dict_of_lookup_NoDup.
    + rewrite zip_range_keys. by rewrite sort_Permutation.
    + apply list_elem_of_lookup. exists i. by apply zip_range_lookup.
Qed.

Lemma labeled_images_of_ok (img_dir folder : string)
    (label_map : gmap string Z) (images : list string) (label : Z) :
  os_listdir (os_path_join img_dir [folder]) = Ok images →
  label_map !! folder = Some label →
  labeled_images_of img_dir label_map folder
  = Ok ((λ image, (os_path_join img_dir [folder; image], label)) <$> images).
Proof.
  intros Hls Hlabel. unfold Enumerator.labeled_images_of. rewrite Hls.
  change (Ok images ≫= ?k) with (k images). cbv beta.
  apply sequence_ok. intros image _. unfold getitem. by rewrite Hlabel.
Qed.

(** A folder without images contributes nothing, whatever the label map. *)
Lemma labeled_images_of_none (img_dir folder : string)
    (label_map : gmap string Z) :
  os_listdir (os_path_join img_dir [folder]) = Ok [] →
  labeled_images_of img_dir label_map folder = Ok [].
Proof. intros Hls. unfold Enumerator.labeled_images_of. by rewrite Hls. Qed.

Lemma labeled_images_ok (img_dir : string) (label_map : gmap string Z)
    (images_of : string → list string) (folders : list string) :
  (∀ folder, folder ∈ folders →
     os_listdir (os_path_join img_dir [folder]) = Ok (images_of folder)) →
  (∀ folder, folder ∈ folders → is_Some (label_map !! folder)) →
  labeled_images img_dir label_map folders
  = Ok (pairs_of img_dir images_of label_map folders).
Proof.
  induction folders as [|folder rest IH]; intros Hls Hlabels; [done|].
  destruct (Hlabels folder) as [label Hlabel]; [by left|].
  cbn [Enumerator.labeled_images].
  rewrite (labeled_images_of_ok _ _ _ (images_of folder) label);
    [|apply Hls; by left|done].
  rewrite IH; [|intros f Hf; apply Hls; by right
               |intros f Hf; apply Hlabels; by right].
  unfold pairs_of. rewrite bind_cons, Hlabel. done.
Qed.

Lemma label_blocks_cons (images_of : string → list string) (k : nat)
    (folder : string) (rest : list string) :
  label_blocks images_of k (folder :: rest)
  = replicate (length (images_of folder)) (Z.of_nat k)
    ++ label_blocks images_of (S k) rest.
Proof.
  unfold label_blocks. rewrite imap_cons. cbn [concat].
  rewrite Nat.add_0_r. f_equal. f_equal. apply imap_ext.
  intros i f _. simpl. do 2 f_equal. lia.
Qed.

Lemma label_blocks_lower (images_of : string → list string)
    (folders : list string) : ∀ (k : nat) (z : Z),
  z ∈ label_blocks images_of k folders → Z.of_nat k ≤ z.
Proof.
  induction folders as [|folder rest IH]; intros k z.
  - by inversion 1.
  - rewrite label_blocks_cons, elem_of_app.
    intros [->%elem_of_replicate_inv|Hz%IH]; lia.
Qed.



Lemma pairs_of_labels (img_dir : string) (images_of : string → list string)
    (label_map : gmap string Z) (folders : list string) : ∀ k : nat,
  (∀ (i : nat) folder, folders !! i = Some folder →
     label_map !! folder = Some (Z.of_nat (k + i))) →
  (pairs_of img_dir images_of label_map folders).*2
  = label_blocks images_of k folders.
Proof.
  induction folders as [|folder rest IH]; intros k Hlabels; [done|].
  rewrite label_blocks_cons. unfold pairs_of. rewrite bind_cons, fmap_app.
  f_equal.
  - rewrite (Hlabels 0%nat folder eq_refl), Nat.add_0_r.
    rewrite <- list_fmap_compose. by apply const_fmap.
  - apply IH. intros i f Hi. rewrite (Hlabels (S i) f Hi). do 2 f_equal. lia.
Qed.

Lemma pairs_of_elem (img_dir : string) (images_of : string → list string)
    (label_map : gmap string Z) (folders : list string) (path : string)
    (label : Z) :
  (path, label) ∈ pairs_of img_dir images_of label_map folders
  ↔ ∃ folder image, folder ∈ folders ∧ image ∈ images_of folder ∧
      path = os_path_join img_dir [folder; image] ∧
      label = default 0 (label_map !! folder).
Proof.
  unfold pairs_of. rewrite list_elem_of_bind. split.
  - intros (folder & (image & [= -> ->] & Himg)%list_elem_of_fmap & Hf).
    by exists folder, image.
  - intros (folder & image & Hf & Himg & -> & ->).
    exists folder. split; [|done]. apply list_elem_of_fmap. by exists image.
Qed.

(** What [create_image_list] returns for a root whose entries are all
    directories that can be listed. *)
Lemma create_image_list_ok (img_dir : string) (listing : list string)
    (images_of : string → list string) :
  os_listdir img_dir = Ok listing →
  NoDup listing →
  (∀ folder, folder ∈ listing →
     os_listdir (os_path_join img_dir [folder]) = Ok (images_of folder)) →
  create_image_list img_dir
  = Ok (zip_star (pairs_of img_dir images_of (label_map_of listing)
                           (sort listing))).
Proof.
  intros Hroot Hnd Hfolders. unfold Enumerator.create_image_list.
  rewrite Hroot. change (Ok listing ≫= ?k) with (k listing). cbv beta zeta.
  fold (label_map_of listing).
  rewrite (labeled_images_ok _ _ images_of); [done| |].
  - intros folder Hf. apply Hfolders. by rewrite <- sort_Permutation.
  - intros folder [i Hi]%list_elem_of_lookup.
    exists (Z.of_nat i). apply label_map_lookup; [done|]. by exists i.
Qed.

Lemma zip_star_columns {A B} (pairs : list (A * B)) :
  zip_star pairs
  = match pairs.*1 with
    | [] => NoColumns
    | _ :: _ => TwoColumns pairs.*1 pairs.*2
    end.
Proof. by destruct pairs. Qed.

(** What is returned, column by column: nothing when there is no image,
    else the column of paths and the column of labels. *)
Lemma create_image_list_columns (img_dir : string) (listing : list string)
    (images_of : string → list string) :
  os_listdir img_dir = Ok listing →
  NoDup listing →
  (∀ folder, folder ∈ listing →
     os_listdir (os_path_join img_dir [folder]) = Ok (images_of folder)) →
  let pairs := pairs_of img_dir images_of (label_map_of listing)
                        (sort listing) in
  create_image_list img_dir
  = Ok (match pairs.*1 with
        | [] => NoColumns
        | _ :: _ => TwoColumns pairs.*1 pairs.*2
        end).
Proof.
  intros Hroot Hnd Hfolders pairs.
  rewrite (create_image_list_ok img_dir listing images_of) by done.
  by rewrite zip_star_columns.
Qed.

Lemma label_map_total (listing : list string) (folder : string) :
  NoDup listing → folder ∈ listing →
  ∃ i : nat, sort listing !! i = Some folder ∧
             label_map_of listing !! folder = Some (Z.of_nat i).
Proof.
  intros Hnd Hin. rewrite <- (sort_Permutation listing) in Hin.
  apply list_elem_of_lookup in Hin as [i Hi]. exists i. split; [done|].
  apply label_map_lookup; [done|]. by exists i.
Qed.

(** C2, as the code has it.  For a root directory whose [N] entries are
    class folders, the label map sends the folder at position [i] of the
    lexicographically sorted folder names to [i], for [i = 0 .. N-1], and
    to nothing else.  When some folder holds an image, two sequences are
    returned, the image paths and the labels: they have the same length,
    every image of every folder occurs among the paths, and the label at a
    position is the label of the folder of the path at that position.
    When no folder holds an image, no sequence is returned at all. *)
Theorem labels_by_sorted_position (img_dir : string) (listing : list string)
    (images_of : string → list string) :
  os_listdir img_dir = Ok listing →
  NoDup listing →
  (∀ folder, folder ∈ listing →
     os_listdir (os_path_join img_dir [folder]) = Ok (images_of folder)) →
  let folders := sort listing in
  let label_map := label_map_of listing in
  folders ≡ₚ listing ∧ Sorted String.le folders ∧
  (∀ folder z, label_map !! folder = Some z
     ↔ ∃ i : nat, (i < length listing)%nat ∧ z = Z.of_nat i ∧
                  folders !! i = Some folder) ∧
  ∃ paths labels,
    create_image_list img_dir
    = Ok (match paths with
          | [] => NoColumns
          | _ :: _ => TwoColumns paths labels
          end) ∧
    length labels = length paths ∧
    (paths = [] ↔ ∀ folder, folder ∈ listing → images_of folder = []) ∧
    (∀ (k : nat) path, paths !! k = Some path →
       ∃ folder image label, folder ∈ listing ∧ image ∈ images_of folder ∧
         path = os_path_join img_dir [folder; image] ∧
         label_map !! folder = Some label ∧ labels !! k = Some label) ∧
    (∀ folder image, folder ∈ listing → image ∈ images_of folder →
       ∃ (k : nat) label,
         paths !! k = Some (os_path_join img_dir [folder; image]) ∧
         label_map !! folder = Some label ∧ labels !! k = Some label).
Proof.
  intros Hroot Hnd Hfolders folders label_map.
  assert (∀ folder z, label_map !! folder = Some z
     ↔ ∃ i : nat, (i < length listing)%nat ∧ z = Z.of_nat i ∧
                  folders !! i = Some folder) as Hmap.
  { intros folder z. unfold label_map. rewrite label_map_lookup by done.
    split; intros (i & Hi); exists i; [|tauto].
    destruct Hi as [-> Hi]. split_and!; [|done..].
    apply lookup_lt_Some in Hi.
    by rewrite <- (Permutation_length (sort_Permutation listing)). }
  split; [apply sort_Permutation|]. split; [apply sort_Sorted|].
  split; [done|].
  set (pairs := pairs_of img_dir images_of label_map folders).
  assert (∀ folder image, folder ∈ listing → image ∈ images_of folder →
            ∃ label, label_map !! folder = Some label ∧
              (os_path_join img_dir [folder; image], label) ∈ pairs) as Hcover.
  { intros folder image Hf Himage.
    destruct (label_map_total listing folder Hnd Hf) as (i & Hi & Hlabel).
    exists (Z.of_nat i). split; [done|].
    apply pairs_of_elem. exists folder, image.
    split_and!; [by apply list_elem_of_lookup_2 in Hi|done..|].
    unfold label_map. by rewrite Hlabel. }
  exists pairs.*1, pairs.*2. split_and!.
  - by apply create_image_list_columns.
  - by rewrite !length_fmap.
  - split.
    + intros Hnil folder Hf.
      destruct (images_of folder) as [|image images] eqn:Himages; [done|].
      destruct (Hcover folder image Hf) as (label & _ & Hin).
      { rewrite Himages. by left. }
      apply fmap_nil_inv in Hnil. rewrite Hnil in Hin.
      by apply elem_of_nil in Hin.
    + intros Hempty. destruct pairs as [|[path label] rest] eqn:Hpairs; [done|].
      assert ((path, label) ∈ pairs) as Hin by (rewrite Hpairs; by left).
      apply pairs_of_elem in Hin as (folder & image & Hf & Himage & _).
      rewrite Hempty in Himage; [by apply elem_of_nil in Himage|].
      unfold folders in Hf. by rewrite sort_Permutation in Hf.
  - intros k path Hk. rewrite list_lookup_fmap in Hk.
    destruct (pairs !! k) as [[path' label]|] eqn:Hpair; [|done].
    injection Hk as ->.
    assert ((path, label) ∈ pairs) as Hin
      by (by apply list_elem_of_lookup_2 in Hpair).
    apply pairs_of_elem in Hin as (folder & image & Hf & Himage & -> & Hlabel).
    assert (folder ∈ listing) as Hf'
      by (unfold folders in Hf; by rewrite sort_Permutation in Hf).
    destruct (label_map_total listing folder Hnd Hf') as (i & _ & Hi).
    fold label_map in Hi. rewrite Hi in Hlabel. simpl in Hlabel. subst label.
    exists folder, image, (Z.of_nat i). split_and!; [done..|].
    by rewrite list_lookup_fmap, Hpair.
  - intros folder image Hf Himage.
    destruct (Hcover folder image Hf Himage) as (label & Hlabel & Hin).
    apply list_elem_of_lookup in Hin as [k Hk].
    exists k, label. split_and!; [|done|]; by rewrite list_lookup_fmap, Hk.
Qed.


(** C5, as the code has it.  For a root directory without entries the
    enumerator does not fail, but what it returns yields no sequence at
    all, not two empty ones; the two-target unpacking of the notebook then
    raises [ValueError]. *)
Theorem empty_directory_yields_nothing (img_dir : string) :
  os_listdir img_dir = Ok [] →
  create_image_list img_dir = Ok NoColumns ∧
  yielded (@NoColumns string Z) = 0%nat ∧
  (create_image_list img_dir ≫= unpack2) = Raise ValueError.
Proof.
  intros Hroot. unfold Enumerator.create_image_list. by rewrite Hroot.
Qed.

End EnumeratorFacts.

(** C2 as stated fails on the directory [bare] of [Scenario], whose class
    folder holds no image: neither an image-path sequence nor a label
    sequence is returned, and the unpacking of the notebook raises
    [ValueError]. *)
Lemma class_folders_without_images_return_nothing :
  Scenario.bare_listdir "bare" = Py.Ok ["water"%string] ∧
  Scenario.bare_listdir (Py.os_path_join "bare" ["water"%string]) = Py.Ok [] ∧
  ¬ (∃ paths labels,
       Enumerator.create_image_list Scenario.bare_listdir "bare"
       = Py.Ok (Py.TwoColumns paths labels) ∧ length labels = length paths) ∧
  (Enumerator.create_image_list Scenario.bare_listdir "bare" ≫= Py.unpack2)
  = Py.Raise Py.ValueError.
Proof.
  split; [reflexivity|]. split; [reflexivity|]. split; [|reflexivity].
  intros (paths & labels & Hrun & _). vm_compute in Hrun. discriminate.
Qed.

(** C5 as stated fails on the empty directory of [Scenario]: the result is
    not a pair of empty sequences. *)
Lemma empty_directory_not_two_sequences :
  Scenario.empty_listdir "empty" = Py.Ok [] ∧
  Enumerator.create_image_list Scenario.empty_listdir "empty"
  ≠ Py.Ok (Py.TwoColumns [] []).
Proof. split; [reflexivity|]. vm_compute. discriminate. Qed.

(** ** The water/forest scenario *)




(** ** The dataset-preparation cell *)
Section SandboxFacts.
Import Py Sandbox.
Context {PIL Img Feature : Type}.
Variable load_img : string → result PIL.
Variable img_to_array : PIL → Img.
Variable preprocess_input : list Img → list Img.
Variable predict_on_batch : list Img → list Feature.
Local Abbreviation featurize :=
  (Sandbox.featurize load_img img_to_array preprocess_input predict_on_batch).

(** Whatever the split, the validation labels of the cell are a prefix of
    the training labels: the validation labels of the split are not read. *)
Lemma valid_labels_from_train_labels (s : Split) (d : Datasets Feature) :
  featurize s = Ok d →
  ds_valid_labels d
  = take (Z.to_nat (len (ds_valid_features d)))
         (take (Z.to_nat (len (ds_train_features d))) (train_labels s)).
Proof.
  unfold Sandbox.featurize.
  destruct (featurizer_extract _ _ _ _ (train_imgs s)) as [tf|e]; [|done].
  destruct (featurizer_extract _ _ _ _ (valid_imgs s)) as [vf|e]; [|done].
  intros [= <-]. simpl.
  rewrite !slice_prefix by (unfold len; lia). done.
Qed.

Lemma valid_labels_ignore_split_labels (s : Split) (other : list Z) :
  ds_valid_labels <$> (match featurize s with Ok d => Some d | _ => None end)
  = ds_valid_labels <$>
      (match featurize {| train_imgs := train_imgs s;
                          valid_imgs := valid_imgs s;
                          train_labels := train_labels s;
                          valid_labels := other |}
       with Ok d => Some d | _ => None end).
Proof.
  unfold Sandbox.featurize. simpl.
  destruct (featurizer_extract _ _ _ _ (train_imgs s)) as [tf|e]; [|done].
  by destruct (featurizer_extract _ _ _ _ (valid_imgs s)) as [vf|e].
Qed.

End SandboxFacts.

(** C3 fails on the code.  On the split of [Scenario] the cell keeps the 64
    validation features, the first of which is that of the image
    [b/181.png] with label 1 in the split, and pairs all of them with the
    label 0: the first 64 training labels. *)
Theorem validation_labels_taken_from_training_labels :
  ∃ d, Sandbox.featurize Scenario.load_any id id id Scenario.split_426
       = Py.Ok d ∧
    Py.len (Sandbox.ds_valid_features d) = 64 ∧
    Sandbox.ds_valid_features d !! 0%nat = Some "b/181.png"%string ∧
    Sandbox.valid_imgs Scenario.split_426 !! 0%nat = Some "b/181.png"%string ∧
    Sandbox.valid_labels Scenario.split_426 !! 0%nat = Some 1 ∧
    Sandbox.ds_valid_labels d !! 0%nat = Some 0 ∧
    Sandbox.ds_valid_labels d = replicate 64 0 ∧
    Sandbox.ds_valid_labels d
    = take 64 (Sandbox.train_labels Scenario.split_426) ∧
    Sandbox.ds_valid_labels d
    ≠ take 64 (Sandbox.valid_labels Scenario.split_426).
Proof.
  destruct (Sandbox.featurize Scenario.load_any id id id Scenario.split_426)
    as [d|e] eqn:Hrun; [|by vm_compute in Hrun].
  exists d. split; [done|].
  vm_compute in Hrun. injection Hrun as <-.
  split_and!; try by vm_compute.
Qed.


(** ** The flags of the training script *)

(** C7.  In both notebooks the script defines exactly the eight flags
    [--batch_size], [--epochs], [--units], [--l1], [--l2], [--data_folder],
    [--train_file_name], [--valid_file_name]; the first six have the types
    and defaults int 32, int 10, int 512, float 0.01, float 0.01 and the
    string "./bottleneck"; the two file names are string flags. *)
Theorem script_flags :
  let expected_switches :=
    ["--batch_size"; "--epochs"; "--units"; "--l1"; "--l2"; "--data_folder";
     "--train_file_name"; "--valid_file_name"]%string in
  let expected_defaults :=
    [("--batch_size", TrainScript.TInteger, TrainScript.VInt 32);
     ("--epochs", TrainScript.TInteger, TrainScript.VInt 10);
     ("--units", TrainScript.TInteger, TrainScript.VInt 512);
     ("--l1", TrainScript.TFloat, TrainScript.VFloat (Q2Qc (1 # 100)));
     ("--l2", TrainScript.TFloat, TrainScript.VFloat (Q2Qc (1 # 100)));
     ("--data_folder", TrainScript.TString,
      TrainScript.VString "./bottleneck")]%string in
  let as_specified flags :=
    TrainScript.switch <$> flags = expected_switches ∧
    NoDup (TrainScript.switch <$> flags) ∧
    take 6 (TrainScript.surface flags) = expected_defaults ∧
    TrainScript.flag_kind <$> drop 6 flags
    = [TrainScript.TString; TrainScript.TString] in
  as_specified TrainScript.flags_train ∧ as_specified TrainScript.flags_tune.
Proof.
  intros sw df as_specified.
  assert (as_specified TrainScript.flags_train) as Htrain; [|by split].
  unfold as_specified. split_and!; [done| |done..].
  apply (bool_decide_unpack _). by vm_compute.
Qed.

(** ** The compute-target cells *)
Section ComputeSetupFacts.
Import Py ComputeSetup.
Context {Target : Type}.
Variable lookup : string → result Target.
Variable create : string → provisioning → result Target.
Variable wait_for_completion : Target → result unit.
Variable name_of : Target → string.
Variable is_batchai : Target → bool.
Variable status_of : Target → string.

Local Ltac run_cell :=
  unfold run, setup_dsvm, setup_batchai, try_except, print, call;
  unfold mbind, cell_bind, mret, cell_ret; cbn beta iota zeta.

(** C8.  In both notebooks [create] is called if and only if the lookup of
    the named target raises an instance of [ComputeTargetException]; when
    the lookup succeeds the cell ends with the target found and [create] is
    not called; when the lookup raises anything else, that exception
    reaches the top level and [create] is not called. *)
Theorem create_iff_lookup_not_found (ws_name : string) :
  let disciplined (found : result Target)
                  (outcome : list event * result Target) :=
    (created outcome.1 = true
     ↔ ∃ e, found = Raise e ∧ isinstance e "ComputeTargetException" = true) ∧
    match found with
    | Ok target => outcome.2 = Ok target ∧ created outcome.1 = false
    | Raise e =>
        if isinstance e "ComputeTargetException"
        then created outcome.1 = true
        else outcome.2 = Raise e ∧ created outcome.1 = false
    end in
  disciplined (lookup "gpudsvm")
    (run (setup_dsvm lookup create wait_for_completion name_of)) ∧
  disciplined (lookup (ws_name +:+ "gpucls"))
    (run (setup_batchai lookup create wait_for_completion is_batchai
            status_of ws_name)).
Proof.
  intros disciplined. unfold disciplined. split.
  - run_cell. destruct (lookup "gpudsvm") as [target|e] eqn:Hfound.
    + cbn. split; [|done]. split; [done|]. by intros (e & [=] & _).
    + cbn. destruct (isinstance e "ComputeTargetException") eqn:Hcls.
      * destruct (create _ _) as [made|e']; cbn.
        -- destruct (wait_for_completion made); cbn;
             (split; [|done]); (split; [|done]); intros _; by exists e.
        -- split; [|done]. split; [|done]. intros _. by exists e.
      * cbn. split; [|done]. split; [done|].
        intros (e' & [= <-] & Hcls'). congruence.
  - run_cell.
    destruct (lookup (ws_name +:+ "gpucls")) as [target|e] eqn:Hfound.
    + destruct (is_batchai target); cbn;
        (split; [|done]); (split; [done|]); by intros (e & [=] & _).
    + cbn. destruct (isinstance e "ComputeTargetException") eqn:Hcls.
      * cbn. destruct (create _ _) as [made|e']; cbn.
        -- destruct (wait_for_completion made); cbn;
             (split; [|done]); (split; [|done]); intros _; by exists e.
        -- split; [|done]. split; [|done]. intros _. by exists e.
      * cbn. split; [|done]. split; [done|].
        intros (e' & [= <-] & Hcls'). congruence.
Qed.

End ComputeSetupFacts.

Example setup_dsvm_missing :
  ComputeSetup.run (ComputeSetup.setup_dsvm Scenario.lookup_missing
                      Scenario.create_named Scenario.wait_done id)
  = ([ComputeSetup.Lookup "gpudsvm";
      ComputeSetup.Create "gpudsvm"
        {| ComputeSetup.vm_size := "Standard_NC6";
           ComputeSetup.autoscale_enabled := None;
           ComputeSetup.cluster_min_nodes := None;
           ComputeSetup.cluster_max_nodes := None |};
      ComputeSetup.WaitForCompletion],
     Py.Ok "gpudsvm"%string).
Proof. reflexivity. Qed.

Example setup_dsvm_present :
  ComputeSetup.run (ComputeSetup.setup_dsvm Scenario.lookup_present
                      Scenario.create_named Scenario.wait_done id)
  = ([ComputeSetup.Lookup "gpudsvm";
      ComputeSetup.Printed "Found existing DSVM: gpudsvm"],
     Py.Ok "gpudsvm"%string).
Proof. reflexivity. Qed.

Example setup_batchai_unreachable :
  ComputeSetup.run (ComputeSetup.setup_batchai Scenario.lookup_unreachable
                      Scenario.create_named Scenario.wait_done
                      (λ _, true) id "jkaml")
  = ([ComputeSetup.Lookup "jkamlgpucls"], Py.Raise Scenario.ConnectionError).
Proof. reflexivity. Qed.

(** ** The hyperdrive grid *)
Section GridFacts.
Import HyperDrive.

Lemma length_bind_const {A B} (f : A → list B) (l : list A) (n : nat) :
  (∀ x, length (f x) = n) → length (l ≫= f) = (length l * n)%nat.
Proof.
  intros Hf. induction l as [|x l IH]; [done|].
  rewrite bind_cons, length_app, Hf, IH. done.
Qed.

(** The grid has as many combinations as the product of the numbers of
    candidate values: [a * b * c] for three hyperparameters. *)
Lemma grid_length (sp : space) :
  length (grid sp) = foldr (λ p n, length p.2 * n)%nat 1%nat sp.
Proof.
  induction sp as [|[name values] sp IH]; [done|].
  cbn [grid foldr snd]. rewrite <- IH.
  apply length_bind_const. intros v.
  rewrite (length_bind_const _ _ 1%nat); [apply Nat.mul_1_r|done].
Qed.

Lemma grid_length_three (n1 n2 n3 : string) (v1 v2 v3 : list hvalue) :
  length (grid [(n1, v1); (n2, v2); (n3, v3)])
  = (length v1 * length v2 * length v3)%nat.
Proof. rewrite grid_length. cbn. lia. Qed.

Lemma grid_elem (name : string) (values : list hvalue) (sp : space)
    (c : combination) :
  c ∈ grid ((name, values) :: sp)
  ↔ ∃ v c', c = (name, v) :: c' ∧ v ∈ values ∧ c' ∈ grid sp.
Proof.
  cbn [grid]. rewrite list_elem_of_bind. split.
  - intros (v & (c' & Hc & Hc')%list_elem_of_bind & Hv).
    apply list_elem_of_singleton in Hc. by exists v, c'.
  - intros (v & c' & -> & Hv & Hc'). exists v. split; [|done].
    apply list_elem_of_bind. exists c'. split; [|done].
    by apply list_elem_of_singleton.
Qed.

(** With candidate values listed once each, no combination occurs twice. *)
Lemma grid_NoDup (sp : space) :
  Forall (λ p, NoDup p.2) sp → NoDup (grid sp).
Proof.
  induction 1 as [|[name values] sp Hvalues _ IH]; [apply NoDup_singleton|].
  cbn [grid]. apply NoDup_bind; [| |done].
  - intros v1 v2 c _ _ (c1 & Hc1 & _)%list_elem_of_bind
                       (c2 & Hc2 & _)%list_elem_of_bind.
    apply list_elem_of_singleton in Hc1, Hc2. congruence.
  - intros v _. apply NoDup_bind; [| |done].
    + intros c1 c2 c _ _ Hc1%list_elem_of_singleton
                         Hc2%list_elem_of_singleton.
      congruence.
    + intros c _. apply NoDup_singleton.
Qed.

(** A list without repetition that is shorter than the grid misses one of
    its combinations. *)
Lemma short_list_misses (sp : space) (runs : list combination) :
  NoDup (grid sp) → (length runs < length (grid sp))%nat →
  ∃ c, c ∈ grid sp ∧ c ∉ runs.
Proof.
  intros Hnd Hshort.
  destruct (decide (Forall (λ c, c ∈ runs) (grid sp))) as [Hall|Hsome].
  - rewrite Forall_forall in Hall.
    pose proof (submseteq_length _ _ (NoDup_submseteq _ _ Hnd Hall)). lia.
  - apply not_Forall_Exists in Hsome; [|apply _].
    apply Exists_exists in Hsome as (c & Hc & Hmiss). by exists c.
Qed.

(** C4 fails on the code.  The grid of the notebook has 2 * 3 * 3 = 18
    combinations, all different, but the run configuration caps the runs at
    12: whatever the service submits within the configuration, no
    combination twice, at least one combination (in fact six) is never
    submitted. *)
Theorem grid_exceeds_max_total_runs (runs : list combination) :
  admissible htc runs →
  length (grid ps) = (2 * 3 * 3)%nat ∧ NoDup (grid ps) ∧
  max_total_runs htc = 12 ∧
  NoDup runs ∧ (length runs ≤ 12)%nat ∧
  (length (grid ps) - length runs ≥ 6)%nat ∧
  ∃ c, c ∈ grid ps ∧ c ∉ runs.
Proof.
  intros (Hnd & Hsub & Hcap). cbn in Hcap.
  assert (NoDup (grid ps)) as Hgrid.
  { apply grid_NoDup. apply (bool_decide_unpack _). by vm_compute. }
  assert (length (grid ps) = 18%nat) as Hsize by apply grid_length_three.
  split_and!; [done..|lia|lia|].
  apply short_list_misses; [done|lia].
Qed.

End GridFacts.

(** ** The theorems at the concrete inputs of [Scenario] *)


Lemma batch_is_its_block_witness :
  (0 ≤ 1 < Py.len (Generator.image_list Scenario.five_by_two) `div` 2) ∧
  length (Generator.pathnames_of Scenario.five_by_two 1) = 2%nat ∧
  (∀ k : nat, (k < 2)%nat →
     ∃ p, Generator.image_list Scenario.five_by_two !! (2 + k)%nat = Some p ∧
          Generator.pathnames_of Scenario.five_by_two 1 !! k = Some p) ∧
  ∃ images, length images = 2%nat ∧
    Forall2 (Generator.loads Scenario.load_any id)
            (Generator.pathnames_of Scenario.five_by_two 1) images ∧
    Generator.__getitem__ Scenario.load_any id Scenario.five_by_two 1
    = Py.Ok (Generator.preprocessed Scenario.five_by_two images).
Proof.
  split; [vm_compute; by split|].
  apply (batch_is_its_block Scenario.load_any id Scenario.five_by_two 1).
  - reflexivity.
  - vm_compute. by split.
  - repeat constructor.
Defined.

Lemma aerial_folders_listed (folder : string) :
  folder ∈ ["water"; "forest"]%string →
  Scenario.aerial_listdir (Py.os_path_join "aerial" [folder])
  = Py.Ok (Scenario.aerial_images_of folder).
Proof.
  intros [->|[->|[]%elem_of_nil]%elem_of_cons]%elem_of_cons; reflexivity.
Defined.

Lemma water_forest_NoDup : NoDup ["water"; "forest"]%string.
Proof.
  apply NoDup_cons.
  split; [by intros ?%list_elem_of_singleton|apply NoDup_singleton].
Defined.

Lemma labels_by_sorted_position_witness :
  let listing := ["water"; "forest"]%string in
  let folders := Py.sort listing in
  let label_map := Enumerator.label_map_of listing in
  folders ≡ₚ listing ∧ Sorted String.le folders ∧
  (∀ folder z, label_map !! folder = Some z
     ↔ ∃ i : nat, (i < 2)%nat ∧ z = Z.of_nat i ∧ folders !! i = Some folder) ∧
  ∃ paths labels,
    Enumerator.create_image_list Scenario.aerial_listdir "aerial"
    = Py.Ok (match paths with
             | [] => Py.NoColumns
             | _ :: _ => Py.TwoColumns paths labels
             end) ∧
    length labels = length paths ∧
    (paths = [] ↔ ∀ folder, folder ∈ listing →
                    Scenario.aerial_images_of folder = []) ∧
    (∀ (k : nat) path, paths !! k = Some path →
       ∃ folder image label, folder ∈ listing ∧
         image ∈ Scenario.aerial_images_of folder ∧
         path = Py.os_path_join "aerial" [folder; image] ∧
         label_map !! folder = Some label ∧ labels !! k = Some label) ∧
    (∀ folder image, folder ∈ listing →
       image ∈ Scenario.aerial_images_of folder →
       ∃ (k : nat) label,
         paths !! k = Some (Py.os_path_join "aerial" [folder; image]) ∧
         label_map !! folder = Some label ∧ labels !! k = Some label).
Proof.
  apply (labels_by_sorted_position Scenario.aerial_listdir "aerial"
           ["water"; "forest"]%string Scenario.aerial_images_of).
  - reflexivity.
  - exact water_forest_NoDup.
  - exact aerial_folders_listed.
Defined.


Lemma empty_directory_yields_nothing_witness :
  Scenario.empty_listdir "empty" = Py.Ok [] ∧
  Enumerator.create_image_list Scenario.empty_listdir "empty"
  = Py.Ok Py.NoColumns ∧
  Py.yielded (@Py.NoColumns string Z) = 0%nat ∧
  (Enumerator.create_image_list Scenario.empty_listdir "empty"
     ≫= Py.unpack2) = Py.Raise Py.ValueError.
Proof.
  split; [reflexivity|].
  apply (empty_directory_yields_nothing Scenario.empty_listdir "empty").
  reflexivity.
Defined.


Lemma submitted_admissible : HyperDrive.admissible HyperDrive.htc
                               (HyperDrive.submitted HyperDrive.htc).
Proof.
  split_and!.
  - apply (bool_decide_unpack _). by vm_compute.
  - intros c Hc. unfold HyperDrive.submitted in Hc.
    by apply subseteq_take in Hc.
  - by vm_compute.
Defined.

Lemma grid_exceeds_max_total_runs_witness :
  length (HyperDrive.grid HyperDrive.ps) = 18%nat ∧
  NoDup (HyperDrive.grid HyperDrive.ps) ∧
  HyperDrive.max_total_runs HyperDrive.htc = 12 ∧
  NoDup (HyperDrive.submitted HyperDrive.htc) ∧
  (length (HyperDrive.submitted HyperDrive.htc) ≤ 12)%nat ∧
  (length (HyperDrive.grid HyperDrive.ps)
   - length (HyperDrive.submitted HyperDrive.htc) ≥ 6)%nat ∧
  ∃ c, c ∈ HyperDrive.grid HyperDrive.ps ∧
       c ∉ HyperDrive.submitted HyperDrive.htc.
Proof.
  apply (grid_exceeds_max_total_runs (HyperDrive.submitted HyperDrive.htc)).
  exact submitted_admissible.
Defined.

(** * Further properties of the code *)

(** ** The generator at its edges *)
Section GeneratorEdges.
Import Py Generator.
Context {PIL Img : Type}.
Variable load_img : string → result PIL.
Variable img_to_array : PIL → Img.
Local Abbreviation loads := (Generator.loads load_img img_to_array).
Local Abbreviation __load_images := (Generator.__load_images load_img img_to_array).
Local Abbreviation __getitem__ := (Generator.__getitem__ load_img img_to_array).
Local Abbreviation emitted_batches := (Generator.emitted_batches load_img img_to_array).
Implicit Types self : ImageGenerator Img.

Lemma load_images_nil self : __load_images self [] = Ok (preprocessed self []).
Proof.
  unfold Generator.__load_images, preprocessed. simpl.
  by destruct (preprocess_fn self).
Qed.

Lemma load_images_plain self (pathnames : list string) :
  preprocess_fn self = None →
  Forall (λ p, is_ok (load_img p) = true) pathnames →
  ∃ images, Forall2 loads pathnames images ∧
            __load_images self pathnames = Ok images.
Proof.
  intros Hnone Hall.
  destruct (load_images_ok load_img img_to_array self pathnames Hall)
    as (images & Himages & Hrun).
  exists images. split; [done|].
  rewrite Hrun. unfold preprocessed. by rewrite Hnone.
Qed.

(** The first failing load ends [__load_images] with its exception. *)
Lemma load_images_raises self (before after : list string) (bad : string)
    (e : exn) :
  Forall (λ p, is_ok (load_img p) = true) before →
  load_img bad = Raise e →
  __load_images self (before ++ bad :: after) = Raise e.
Proof.
  intros Hbefore Hbad. unfold Generator.__load_images.
  assert (∀ acc, Generator.load_loop load_img img_to_array
                   (before ++ bad :: after) acc = Raise e) as ->; [|done].
  induction Hbefore as [|p before Hp _ IH]; intros acc.
  - simpl. by rewrite Hbad.
  - simpl. destruct (load_img p) as [v|e0]; [|done]. apply IH.
Qed.

(** X1.  For a generator without [preprocess_fn] and with a positive batch
    size, the index one past the announced batches addresses the images a
    pass leaves out: the slice is the last [M mod B] path names, and when
    those images load, [__getitem__] returns their arrays, one per path
    name in order, with no [IndexError]; when one of them does not load,
    [__getitem__] raises the loader's exception for the first such
    image. *)
Theorem getitem_reaches_the_tail self :
  let L := image_list self in
  let M := len L in
  let B := batch_size self in
  let tail := drop (Z.to_nat (M - M `mod` B)) L in
  0 < B → preprocess_fn self = None →
  pathnames_of self (M `div` B) = tail ∧
  len tail = M `mod` B ∧
  (Forall (λ p, is_ok (load_img p) = true) tail →
   ∃ images, Forall2 loads tail images ∧ len images = M `mod` B ∧
             __getitem__ self (M `div` B) = Ok images) ∧
  (∀ before bad after e,
     tail = before ++ bad :: after →
     Forall (λ p, is_ok (load_img p) = true) before →
     load_img bad = Raise e →
     __getitem__ self (M `div` B) = Raise e).
Proof.
  intros L M B tail HB Hnone.
  assert (M = Z.of_nat (length L)) as HM by done.
  pose proof (Z.div_mod M B ltac:(lia)) as Hdm.
  pose proof (Z.mod_pos_bound M B HB) as Hmod.
  assert (0 ≤ M `div` B) as Hq by (apply Z.div_pos; lia).
  assert (pathnames_of self (M `div` B) = tail) as Hslice.
  { unfold pathnames_of, slice. fold L B. fold (len L). fold M.
    rewrite (slice_index_inside M (M `div` B * B)) by nia.
    rewrite (slice_index_beyond M ((M `div` B + 1) * B)) by nia.
    replace (M - M `div` B * B) with (M `mod` B) by lia.
    replace (M `div` B * B) with (M - M `mod` B) by lia.
    unfold tail. apply take_ge. rewrite length_drop. lia. }
  assert (len tail = M `mod` B) as Hlen.
  { unfold tail, len. rewrite length_drop. lia. }
  split; [done|]. split; [done|]. split.
  - intros Hload.
    destruct (load_images_plain self tail Hnone Hload)
      as (images & Himages & Hrun).
    exists images. split; [done|]. split.
    + unfold len in *. by rewrite <- (Forall2_length _ _ _ Himages).
    + unfold Generator.__getitem__. by rewrite Hslice.
  - intros before bad after e Htail Hbefore Hbad.
    unfold Generator.__getitem__. rewrite Hslice, Htail.
    by apply load_images_raises.
Qed.

(** X2.  For a generator without [preprocess_fn] and with a positive batch
    size, an index whose batch would start at or after the end of the list
    gives an empty batch: the slice is empty, no image is loaded (the loader
    does not matter) and there is no [IndexError]. *)
Theorem getitem_beyond_the_list self (i : Z) :
  0 < batch_size self → len (image_list self) ≤ i * batch_size self →
  preprocess_fn self = None →
  pathnames_of self i = [] ∧ __getitem__ self i = Ok [].
Proof.
  intros HB Hbeyond Hnone.
  assert (pathnames_of self i = []) as Hnil.
  { unfold pathnames_of, slice. set (M := len (image_list self)) in *.
    assert (0 ≤ M) by (unfold M, len; lia).
    rewrite (slice_index_beyond M (i * batch_size self)) by lia.
    rewrite (slice_index_beyond M ((i + 1) * batch_size self)) by nia.
    by rewrite Z.sub_diag. }
  split; [done|].
  unfold Generator.__getitem__. rewrite Hnil, load_images_nil.
  unfold preprocessed. by rewrite Hnone.
Qed.

(** X3.  For a generator without [preprocess_fn], the index [-1] does not
    address the last batch: the slice runs from [-batch_size] to [0] and is
    empty for every image list and every batch size, so [__getitem__]
    returns an empty batch and loads nothing. *)
Theorem getitem_minus_one_is_empty self :
  preprocess_fn self = None →
  pathnames_of self (-1) = [] ∧ __getitem__ self (-1) = Ok [].
Proof.
  intros Hnone.
  assert (pathnames_of self (-1) = []) as Hnil.
  { unfold pathnames_of, slice.
    replace ((-1 + 1) * batch_size self) with 0 by lia.
    set (n := len (image_list self)).
    assert (0 ≤ n) by (unfold n, len; lia).
    rewrite (slice_index_inside n 0) by lia.
    assert (0 ≤ slice_index n (-1 * batch_size self)) as Hlo.
    { unfold slice_index. case_decide; lia. }
    replace (Z.to_nat (0 - slice_index n (-1 * batch_size self))) with 0%nat
      by lia.
    apply take_0. }
  split; [done|].
  unfold Generator.__getitem__. rewrite Hnil, load_images_nil.
  unfold preprocessed. by rewrite Hnone.
Qed.

(** X4.  With batch size 0 the length of the generator cannot be taken: the
    pass ends with [ZeroDivisionError] before any image is loaded, while
    every single batch is empty. *)
Theorem zero_batch_size self :
  batch_size self = 0 →
  __len__ self = Raise ZeroDivisionError ∧
  emitted_batches self = Raise ZeroDivisionError ∧
  ∀ i, pathnames_of self i = [].
Proof.
  intros HB.
  assert (__len__ self = Raise ZeroDivisionError) as Hlen.
  { unfold __len__, floordiv. rewrite HB. by case_decide. }
  split; [done|]. split.
  - unfold Generator.emitted_batches. by rewrite Hlen.
  - intros i. unfold pathnames_of, slice. rewrite HB, !Z.mul_0_r.
    by rewrite Z.sub_diag.
Qed.

Lemma short_list_emits_nothing_aux self :
  0 < batch_size self → len (image_list self) < batch_size self →
  __len__ self = Ok 0 ∧ emitted_batches self = Ok [] ∧
  processed_pathnames self = Ok [].
Proof.
  intros HB Hshort.
  assert (__len__ self = Ok 0) as Hlen.
  { rewrite len_ok by done. f_equal. apply Z.div_small.
    unfold len in *. lia. }
  split; [done|].
  unfold Generator.emitted_batches, processed_pathnames. by rewrite Hlen.
Qed.

End GeneratorEdges.

(** ** The featurizer *)
Section FeaturizerFacts.
Import Py Generator.
Context {PIL Img Feature : Type}.
Variable load_img : string → result PIL.
Variable img_to_array : PIL → Img.
Local Abbreviation loads := (Generator.loads load_img img_to_array).
Local Abbreviation __getitem__ := (Generator.__getitem__ load_img img_to_array).
Local Abbreviation emitted_batches := (Generator.emitted_batches load_img img_to_array).
Implicit Types self : ImageGenerator Img.

Lemma sequence_fmap_inv {A B} (f : A → result B) (l : list A) : ∀ r,
  sequence (f <$> l) = Ok r → Forall2 (λ x b, f x = Ok b) l r.
Proof.
  induction l as [|x l IH]; intros r.
  - intros [= <-]. constructor.
  - rewrite fmap_cons. cbn [sequence].
    destruct (f x) as [b|e] eqn:Hx; [|done]. cbn [bind].
    destruct (sequence (f <$> l)) as [r'|e] eqn:Hl; [|done]. cbn [bind].
    intros [= <-]. constructor; [done|]. by apply IH.
Qed.

Lemma Forall2_elem_of_l {A B} (P : A → B → Prop) (l0 l : list A) (r : list B) :
  (∀ x, x ∈ l → x ∈ l0) → Forall2 P l r →
  Forall2 (λ x b, x ∈ l0 ∧ P x b) l r.
Proof.
  intros Hsub Hall. induction Hall as [|x b l r Hxb _ IH]; [constructor|].
  constructor; [split; [apply Hsub; by left|done]|].
  apply IH. intros y Hy. apply Hsub. by right.
Qed.

Lemma length_concat_same {A} (ls : list (list A)) (n : nat) :
  Forall (λ l, length l = n) ls → length (concat ls) = (length ls * n)%nat.
Proof.
  induction 1 as [|l ls Hl _ IH]; [done|].
  cbn [concat]. rewrite length_app, Hl, IH. done.
Qed.

Lemma fmap_concat {A B} (f : A → B) (ls : list (list A)) :
  f <$> concat ls = concat ((λ l : list A, f <$> l) <$> ls).
Proof.
  induction ls as [|l ls IH]; [done|].
  cbn [concat]. by rewrite fmap_app, IH.
Qed.

(** Every batch of a pass: the array of the images loaded from its slice,
    one per path name. *)
Lemma emitted_batches_shape self :
  let L := image_list self in
  let M := len L in
  let B := batch_size self in
  0 < B →
  Forall (λ p, is_ok (load_img p) = true) (take (Z.to_nat (M - M `mod` B)) L) →
  ∃ batches, emitted_batches self = Ok batches ∧
    Forall2 (λ i batch, ∃ images,
               length images = Z.to_nat B ∧
               Forall2 loads (pathnames_of self i) images ∧
               (∀ p, p ∈ pathnames_of self i →
                     p ∈ take (Z.to_nat (M - M `mod` B)) L) ∧
               batch = preprocessed self images)
            (range (M `div` B)) batches.
Proof.
  intros L M B HB Hload.
  destruct (emitted_batches_ok load_img img_to_array self HB Hload)
    as (batches & Hrun & _).
  exists batches. split; [done|].
  unfold Generator.emitted_batches in Hrun. rewrite (len_ok self HB) in Hrun.
  change (Ok ?steps ≫= ?k) with (k steps) in Hrun. cbv beta in Hrun.
  apply sequence_fmap_inv in Hrun.
  apply (Forall2_elem_of_l _ (range (M `div` B))) in Hrun; [|done].
  eapply Forall2_impl; [exact Hrun|]. clear Hrun.
  intros i batch [Hi Hbatch]. cbv beta in Hbatch.
  assert (∀ p, p ∈ pathnames_of self i →
               p ∈ take (Z.to_nat (M - M `mod` B)) L) as Hin.
  { intros p Hp. unfold M, B, L. rewrite <- (processed_prefix self HB).
    apply elem_of_concat. exists (pathnames_of self i). split; [|done].
    by apply list_elem_of_fmap_2. }
  destruct (load_images_ok load_img img_to_array self (pathnames_of self i))
    as (images & Himages & Hok).
  { apply Forall_forall. intros p Hp. rewrite Forall_forall in Hload.
    by apply Hload, Hin. }
  exists images. split_and!; [|done|done|].
  - apply Forall2_length in Himages. rewrite <- Himages.
    apply elem_of_seqZ in Hi.
    rewrite <- (Z2Nat.id i) by lia.
    rewrite pathnames_of_block; [|done|rewrite Z2Nat.id by lia; apply Hi].
    rewrite length_take, length_drop, <- Z2Nat.inj_mul by lia.
    pose proof (Z.mul_div_le (len (image_list self)) (batch_size self) HB)
      as Hfit.
    assert ((i + 1) * batch_size self ≤ Z.of_nat (length (image_list self)))
      as Hroom.
    { unfold M, B, L, len in *. nia. }
    unfold B. lia.
  - unfold Generator.__getitem__ in Hbatch. congruence.
Qed.

Lemma loads_unique (ld : string → PIL) (ps : list string) (images : list Img) :
  (∀ p, p ∈ ps → load_img p = Ok (ld p)) →
  Forall2 loads ps images → images = (λ p, img_to_array (ld p)) <$> ps.
Proof.
  intros Hld Hall. induction Hall as [|p im ps images Hp _ IH]; [done|].
  rewrite fmap_cons. f_equal.
  - destruct Hp as (v & Hv & ->). rewrite (Hld p) in Hv by left. congruence.
  - apply IH. intros q Hq. apply Hld. by right.
Qed.

Variable preprocess_input : list Img → list Img.
Variable predict_on_batch : list Img → list Feature.
Local Abbreviation extract :=
  (Generator.extract load_img img_to_array preprocess_input predict_on_batch).

Lemma extract_rows (image_list : list string) :
  let M := len image_list in
  (∀ images, length (preprocess_input images) = length images) →
  (∀ batch, length (predict_on_batch batch) = length batch) →
  Forall (λ p, is_ok (load_img p) = true)
         (take (Z.to_nat (M - M `mod` 64)) image_list) →
  ∃ features, extract image_list = Ok features ∧
    len features = 64 * (M `div` 64).
Proof.
  intros M Hpre Hpredict Hload.
  set (self := init image_list (Some preprocess_input) None).
  destruct (emitted_batches_shape self) as (batches & Hrun & Hshape);
    [done|exact Hload|].
  exists (concat (predict_on_batch <$> batches)).
  split.
  { unfold Generator.extract, predict_generator. fold self. by rewrite Hrun. }
  unfold len. rewrite (length_concat_same _ 64).
  - rewrite length_fmap, <- (Forall2_length _ _ _ Hshape).
    unfold range. rewrite length_seqZ.
    assert (0 ≤ M `div` 64) by (apply Z.div_pos; unfold M, len; lia).
    change (len (Generator.image_list self) `div` batch_size self)
      with (M `div` 64). lia.
  - apply Forall_fmap, Forall_forall. intros batch Hbatch.
    apply list_elem_of_lookup in Hbatch as [k Hk].
    destruct (Forall2_lookup_r _ _ _ _ _ Hshape Hk)
      as (i & _ & images & Hlen & _ & _ & ->).
    unfold compose. rewrite Hpredict. unfold preprocessed. simpl.
    by rewrite Hpre, Hlen.
Qed.

(** X6.  [extract] returns a whole number of batches of 64 feature rows: for [M]
    images, [64 * (M // 64)] rows, so between 0 and 63 images go without a
    feature row.  (The model and the preprocessing return one row per
    image, and the images of the batches can be loaded.) *)
Theorem extract_feature_count (image_list : list string) :
  let M := len image_list in
  (∀ images, length (preprocess_input images) = length images) →
  (∀ batch, length (predict_on_batch batch) = length batch) →
  Forall (λ p, is_ok (load_img p) = true)
         (take (Z.to_nat (M - M `mod` 64)) image_list) →
  ∃ features, extract image_list = Ok features ∧
    len features = 64 * (M `div` 64) ∧
    len features `mod` 64 = 0 ∧
    M - len features = M `mod` 64 ∧
    0 ≤ M - len features < 64.
Proof.
  intros M Hpre Hpredict Hload.
  destruct (extract_rows image_list Hpre Hpredict Hload)
    as (features & Hrun & Hcount).
  fold M in Hcount.
  exists features. split; [done|]. split; [done|]. rewrite Hcount.
  pose proof (Z.div_mod M 64 ltac:(lia)) as Hdm.
  pose proof (Z.mod_pos_bound M 64 ltac:(lia)) as Hmod.
  split; [|lia].
  rewrite Z.mul_comm. apply Z.mod_mul. lia.
Qed.

(** X5.  With fewer than 64 images [extract] returns no feature row at all and
    reads no image: whether the files can be read does not matter. *)
Theorem extract_of_short_list (image_list : list string) :
  len image_list < 64 → extract image_list = Ok [].
Proof.
  intros Hshort.
  set (self := init image_list (Some preprocess_input) None).
  destruct (short_list_emits_nothing_aux load_img img_to_array self)
    as (_ & Hrun & _); [done|done|].
  unfold Generator.extract, predict_generator. fold self. by rewrite Hrun.
Qed.

End FeaturizerFacts.

Section PerImageFeaturizer.
Import Py Generator.
Context {PIL Img Feature : Type}.
Variable load_img : string → result PIL.
Variable img_to_array : PIL → Img.
(** What is loaded from a path, the preprocessing of one image and the
    feature row of one image. *)
Variable ld : string → PIL.
Variable g : Img → Img.
Variable f : Img → Feature.

Lemma Forall2_fmap_eq {A B} (F : A → B) (l : list A) (r : list B) :
  Forall2 (λ x y, y = F x) l r → r = F <$> l.
Proof. induction 1 as [|x y l r -> _ ->]; done. Qed.

(** When preprocessing and model work image by image, the feature rows are
    those of the first [64 * (M // 64)] images, in the order of the list. *)
Lemma extract_per_image (image_list : list string) :
  let M := len image_list in
  (∀ p, p ∈ take (Z.to_nat (M - M `mod` 64)) image_list →
        load_img p = Ok (ld p)) →
  Generator.extract load_img img_to_array (fmap g) (fmap f) image_list
  = Ok ((λ p, f (g (img_to_array (ld p))))
        <$> take (Z.to_nat (M - M `mod` 64)) image_list).
Proof.
  intros M Hld.
  set (self := init image_list (Some (fmap g)) None).
  destruct (emitted_batches_shape load_img img_to_array self)
    as (batches & Hrun & Hshape); [done| |].
  { apply Forall_forall. intros p Hp. by rewrite (Hld p Hp). }
  unfold Generator.extract, predict_generator. fold self. rewrite Hrun.
  change (Ok batches ≫= ?k) with (k batches). cbv beta. f_equal.
  assert (batches
          = (λ i, (λ p, g (img_to_array (ld p))) <$> pathnames_of self i)
            <$> range (M `div` 64)) as ->.
  { apply Forall2_fmap_eq. eapply Forall2_impl; [exact Hshape|].
    intros i batch (images & _ & Himages & Hin & ->).
    apply (loads_unique _ _ ld) in Himages as ->.
    - unfold preprocessed. simpl. by rewrite <- list_fmap_compose.
    - intros p Hp. by apply Hld, Hin. }
  assert (concat (pathnames_of self <$> range (M `div` 64))
          = take (Z.to_nat (M - M `mod` 64)) image_list) as Hprefix
    by exact (processed_prefix self eq_refl).
  rewrite <- list_fmap_compose, <- Hprefix.
  rewrite fmap_concat, <- list_fmap_compose.
  f_equal. apply list_fmap_ext. intros _ i _. simpl.
  by rewrite <- list_fmap_compose.
Qed.

End PerImageFeaturizer.

(** ** The dataset-preparation and training cells together *)
Section SandboxCells.
Import Py Sandbox.
Context {PIL Img Feature : Type}.
Variable load_img : string → result PIL.
Variable img_to_array : PIL → Img.

(** X7.  For the training split the cell pairs every feature row with the
    label of its own image: the feature rows are those of the first
    [64 * (M // 64)] training images and the labels are cut to the same
    prefix.  (Contrast the validation labels.) *)
Theorem training_rows_keep_their_labels (ld : string → PIL) (g : Img → Img)
    (f : Img → Feature) (s : Split) :
  let M := len (train_imgs s) in
  let K := Z.to_nat (M - M `mod` 64) in
  let row := λ p, f (g (img_to_array (ld p))) in
  (∀ p, load_img p = Ok (ld p)) →
  length (train_labels s) = length (train_imgs s) →
  ∃ d, featurize load_img img_to_array (fmap g) (fmap f) s = Ok d ∧
    ds_train_features d = row <$> take K (train_imgs s) ∧
    ds_train_labels d = take K (train_labels s) ∧
    length (ds_train_labels d) = length (ds_train_features d) ∧
    ∀ (j : nat) feature, ds_train_features d !! j = Some feature →
      ∃ p label, train_imgs s !! j = Some p ∧ feature = row p ∧
                 train_labels s !! j = Some label ∧
                 ds_train_labels d !! j = Some label.
Proof.
  intros M K row Hld Hlabels.
  assert (0 ≤ M) as HM by (unfold M, len; lia).
  pose proof (Z.mod_pos_bound M 64 ltac:(lia)) as Hmod.
  assert (M `mod` 64 ≤ M) as Hle by (apply Z.mod_le; lia).
  assert ((K ≤ length (train_imgs s))%nat) as HK by (unfold K, M, len in *; lia).
  eexists. split.
  { unfold featurize, featurizer_extract.
    rewrite !(extract_per_image load_img img_to_array ld g f)
      by (intros p _; apply Hld).
    reflexivity. }
  cbn [ds_train_features ds_train_labels]. fold M K row.
  assert (slice (train_labels s) 0 (len (row <$> take K (train_imgs s)))
          = take K (train_labels s)) as Hcut.
  { rewrite slice_prefix by (unfold len; lia).
    unfold len. rewrite Nat2Z.id, length_fmap, length_take. f_equal. lia. }
  rewrite Hcut. split; [done|]. split; [done|]. split.
  { rewrite length_fmap, !length_take. lia. }
  intros j feature Hj.
  rewrite list_lookup_fmap in Hj.
  destruct (take K (train_imgs s) !! j) as [p|] eqn:Hp; [|done].
  injection Hj as <-.
  assert ((j < K)%nat) as HjK.
  { apply lookup_lt_Some in Hp. rewrite length_take in Hp. lia. }
  rewrite lookup_take_lt in Hp by done.
  destruct (lookup_lt_is_Some_2 (train_labels s) j) as [label Hlabel]; [lia|].
  exists p, label. split_and!; [done..|].
  by rewrite lookup_take_lt.
Qed.

(** X8.  The steps of the training cell cover the feature rows exactly: the
    featurizer's batch size and the cell's [batch_size] are both 64, so
    [steps_per_epoch] is [M // 64] for [M] training images and
    [64 * steps_per_epoch] is the number of feature rows; likewise for the
    validation steps. *)
Theorem steps_cover_the_features
    (preprocess_input : list Img → list Img)
    (predict_on_batch : list Img → list Feature) (s : Split) :
  (∀ images, length (preprocess_input images) = length images) →
  (∀ batch, length (predict_on_batch batch) = length batch) →
  (∀ p, is_ok (load_img p) = true) →
  ∃ d steps_per_epoch validation_steps,
    featurize load_img img_to_array preprocess_input predict_on_batch s
    = Ok d ∧
    Training.steps (ds_train_features d) (ds_valid_features d)
    = Ok (steps_per_epoch, validation_steps) ∧
    steps_per_epoch = len (train_imgs s) `div` 64 ∧
    validation_steps = len (valid_imgs s) `div` 64 ∧
    64 * steps_per_epoch = len (ds_train_features d) ∧
    64 * validation_steps = len (ds_valid_features d).
Proof.
  intros Hpre Hpredict Hload.
  destruct (extract_rows load_img img_to_array preprocess_input
              predict_on_batch (train_imgs s) Hpre Hpredict)
    as (tf & Htf & Htn); [apply Forall_forall; by intros p _|].
  destruct (extract_rows load_img img_to_array preprocess_input
              predict_on_batch (valid_imgs s) Hpre Hpredict)
    as (vf & Hvf & Hvn); [apply Forall_forall; by intros p _|].
  eexists. exists (len (train_imgs s) `div` 64), (len (valid_imgs s) `div` 64).
  split.
  { unfold featurize, featurizer_extract. rewrite Htf, Hvf. reflexivity. }
  cbn [ds_train_features ds_valid_features].
  split; [|by rewrite Htn, Hvn].
  unfold Training.steps, floordiv. rewrite Htn, Hvn.
  rewrite !(Z.mul_comm 64), !Z.div_mul by lia. done.
Qed.

End SandboxCells.

(** ** The paths the enumerator builds *)
Section PathFacts.
Import Py Paths.

Lemma append_cons (ch : ascii) (a b : string) :
  (String ch a +:+ b)%string = String ch (a +:+ b).
Proof. reflexivity. Qed.

Lemma append_assoc (a b c : string) : ((a +:+ b) +:+ c = a +:+ b +:+ c)%string.
Proof.
  induction a as [|ch a IH]; [done|]. rewrite !append_cons. by f_equal.
Qed.

Lemma append_cancel_l (a b c : string) : (a +:+ b = a +:+ c)%string → b = c.
Proof.
  induction a as [|ch a IH]; [done|]. rewrite !append_cons. intros [= H]. auto.
Qed.

Lemma append_not_empty (a b : string) :
  b ≠ EmptyString → (a +:+ b)%string ≠ EmptyString.
Proof. destruct a; [done|]. rewrite append_cons. discriminate. Qed.

Lemma entry_name_inv (s : string) :
  entry_name s = true → s ≠ EmptyString ∧ no_sep s = true.
Proof.
  unfold entry_name. intros [Hne Hsep]%andb_prop. split; [|done].
  apply negb_true_iff, bool_decide_eq_false in Hne. done.
Qed.

Lemma startswith_no_sep (s : string) :
  no_sep s = true → startswith_sep s = false.
Proof.
  destruct s as [|c s]; [done|]. simpl.
  intros [Hc _]%andb_prop. by apply negb_true_iff in Hc.
Qed.

Lemma endswith_no_sep (s : string) :
  no_sep s = true → endswith_sep s = false.
Proof.
  induction s as [|c s IH]; [done|]. simpl.
  intros [Hc Hs]%andb_prop. apply negb_true_iff in Hc.
  destruct s; [done|]. by apply IH.
Qed.

Lemma endswith_append (a b : string) :
  b ≠ EmptyString → endswith_sep (a +:+ b) = endswith_sep b.
Proof.
  intros Hb. induction a as [|c a IH]; [done|].
  rewrite append_cons. pose proof (append_not_empty a b Hb).
  simpl. destruct (a +:+ b)%string eqn:Hab; [done|]. exact IH.
Qed.

(** The first join puts the folder name behind [base img_dir]. *)
Lemma join_folder (img_dir folder : string) :
  no_sep folder = true →
  os_path_join img_dir [folder] = (base img_dir +:+ folder)%string.
Proof.
  intros Hsep. unfold os_path_join, base. simpl. unfold join_step.
  rewrite (startswith_no_sep folder Hsep).
  destruct (bool_decide (img_dir = EmptyString) || endswith_sep img_dir);
    [done|]. symmetry. apply append_assoc.
Qed.

(** The path of an image: directory, folder and file name, separated. *)
Lemma join_folder_image (img_dir folder image : string) :
  entry_name folder = true → entry_name image = true →
  os_path_join img_dir [folder; image]
  = (base img_dir +:+ folder +:+ "/" +:+ image)%string.
Proof.
  intros [Hf Hfsep]%entry_name_inv [Hi Hisep]%entry_name_inv.
  change (os_path_join img_dir [folder; image])
    with (join_step (os_path_join img_dir [folder]) image).
  rewrite join_folder by done. unfold join_step.
  rewrite (startswith_no_sep image Hisep).
  rewrite endswith_append, (endswith_no_sep folder Hfsep) by done.
  rewrite bool_decide_eq_false_2 by (by apply append_not_empty).
  simpl. apply append_assoc.
Qed.

(** A folder name without separator can be read back from the path. *)
Lemma folder_image_inj (f1 f2 i1 i2 : string) :
  no_sep f1 = true → no_sep f2 = true →
  (f1 +:+ "/" +:+ i1 = f2 +:+ "/" +:+ i2)%string → f1 = f2 ∧ i1 = i2.
Proof.
  revert f2. induction f1 as [|c f1 IH]; intros [|d f2] H1 H2 Heq.
  - change (String "/" i1 = String "/" i2) in Heq. by injection Heq as ->.
  - change (String "/" i1 = String d (f2 +:+ "/" +:+ i2)%string) in Heq.
    injection Heq as <- _. simpl in H2. done.
  - change (String c (f1 +:+ "/" +:+ i1)%string = String "/" i2) in Heq.
    injection Heq as -> _. simpl in H1. done.
  - change (String c (f1 +:+ "/" +:+ i1)%string
            = String d (f2 +:+ "/" +:+ i2)%string) in Heq.
    injection Heq as -> Hrest. simpl in H1, H2.
    apply andb_prop in H1 as [_ H1]. apply andb_prop in H2 as [_ H2].
    destruct (IH f2 H1 H2 Hrest) as [-> ->]. done.
Qed.

End PathFacts.

(** ** More on the image enumerator *)
Section EnumeratorMore.
Import Py Paths Enumerator.
Variable os_listdir : string → result (list string).
Local Abbreviation labeled_images_of := (Enumerator.labeled_images_of os_listdir).
Local Abbreviation labeled_images := (Enumerator.labeled_images os_listdir).
Local Abbreviation create_image_list := (Enumerator.create_image_list os_listdir).

Lemma pairs_of_cons (img_dir : string) (images_of : string → list string)
    (label_map : gmap string Z) (folder : string) (rest : list string) :
  pairs_of img_dir images_of label_map (folder :: rest)
  = ((λ image, (os_path_join img_dir [folder; image],
                default 0 (label_map !! folder))) <$> images_of folder)
    ++ pairs_of img_dir images_of label_map rest.
Proof. unfold pairs_of. by rewrite bind_cons. Qed.

Lemma pairs_of_paths (img_dir : string) (images_of : string → list string)
    (label_map : gmap string Z) (folders : list string) (path : string) :
  path ∈ (pairs_of img_dir images_of label_map folders).*1
  ↔ ∃ folder image, folder ∈ folders ∧ image ∈ images_of folder ∧
      path = os_path_join img_dir [folder; image].
Proof.
  rewrite list_elem_of_fmap. split.
  - intros ([path' label] & -> & Hin). apply pairs_of_elem in Hin.
    destruct Hin as (folder & image & Hf & Hi & -> & _). by exists folder, image.
  - intros (folder & image & Hf & Hi & ->).
    exists (os_path_join img_dir [folder; image],
            default 0 (label_map !! folder)).
    split; [done|]. apply pairs_of_elem. by exists folder, image.
Qed.

(** X9.  No image path is returned twice, and every returned path is the root,
    the class folder and the file name with separators between them.
    (Entry names are not empty and hold no separator; a listing names no
    entry twice.) *)
Theorem image_paths_distinct (img_dir : string) (listing : list string)
    (images_of : string → list string) :
  os_listdir img_dir = Ok listing →
  NoDup listing →
  (∀ folder, folder ∈ listing →
     os_listdir (os_path_join img_dir [folder]) = Ok (images_of folder)) →
  (∀ folder, folder ∈ listing →
     entry_name folder = true ∧ NoDup (images_of folder) ∧
     ∀ image, image ∈ images_of folder → entry_name image = true) →
  ∃ pairs, create_image_list img_dir = Ok (zip_star pairs) ∧
    NoDup pairs.*1 ∧
    ∀ path, path ∈ pairs.*1
      ↔ ∃ folder image, folder ∈ listing ∧ image ∈ images_of folder ∧
          path = (base img_dir +:+ folder +:+ "/" +:+ image)%string.
Proof.
  intros Hroot Hnd Hfolders Hnames.
  exists (pairs_of img_dir images_of (label_map_of listing) (sort listing)).
  split; [by apply create_image_list_ok|].
  assert (∀ folder, folder ∈ sort listing → folder ∈ listing) as Hsorted.
  { intros folder. by rewrite sort_Permutation. }
  assert (NoDup (sort listing)) as Hnd' by (by rewrite sort_Permutation).
  split.
  - revert Hsorted Hnd'. generalize (sort listing) as folders.
    induction folders as [|folder rest IH]; intros Hsub Hnd'.
    { constructor. }
    apply NoDup_cons in Hnd' as [Hfresh Hrest].
    destruct (Hnames folder) as (Hname & Himages & Hentries);
      [apply Hsub; by left|].
    rewrite pairs_of_cons, fmap_app. apply NoDup_app. split_and!.
    + rewrite <- list_fmap_compose.
      apply NoDup_fmap_2_strong; [|done].
      intros i1 i2 Hi1 Hi2. unfold compose. cbn [fst].
      rewrite !join_folder_image by auto.
      intros Heq%append_cancel_l.
      apply entry_name_inv in Hname as [_ Hsep].
      by destruct (folder_image_inj _ _ _ _ Hsep Hsep Heq).
    + intros path Hhead Htail.
      rewrite <- list_fmap_compose in Hhead.
      apply list_elem_of_fmap in Hhead as (image & -> & Himage).
      apply pairs_of_paths in Htail as (folder' & image' & Hf' & Hi' & Heq).
      unfold compose in Heq. cbn [fst] in Heq.
      destruct (Hnames folder') as (Hname' & _ & Hentries');
        [apply Hsub; by right|].
      rewrite !join_folder_image in Heq by auto.
      apply append_cancel_l in Heq.
      apply entry_name_inv in Hname as [_ Hsep].
      apply entry_name_inv in Hname' as [_ Hsep'].
      destruct (folder_image_inj _ _ _ _ Hsep Hsep' Heq) as [-> _]. done.
    + apply IH; [|done]. intros f Hf. apply Hsub. by right.
  - intros path. rewrite pairs_of_paths.
    split; intros (folder & image & Hf & Hi & ->); exists folder, image.
    + assert (folder ∈ listing) as Hin by auto.
      destruct (Hnames folder Hin) as (Hname & _ & Hentries).
      split_and!; [done..|]. by apply join_folder_image; auto.
    + destruct (Hnames folder Hf) as (Hname & _ & Hentries).
      split_and!; [by rewrite sort_Permutation|done|].
      symmetry. by apply join_folder_image; auto.
Qed.

End EnumeratorMore.

Section EnumeratorCounts.
Import Py Enumerator.
Variable os_listdir : string → result (list string).
Local Abbreviation create_image_list := (Enumerator.create_image_list os_listdir).

Lemma filter_replicate_eq (n : nat) (z : Z) :
  filter (λ x, x = z) (replicate n z) = replicate n z.
Proof.
  induction n as [|n IH]; [done|]. simpl.
  rewrite filter_cons_True by done. by rewrite IH.
Qed.

Lemma filter_none (z : Z) (l : list Z) :
  (∀ x, x ∈ l → x ≠ z) → filter (λ x, x = z) l = [].
Proof.
  induction l as [|y l IH]; intros Hne; [done|].
  rewrite filter_cons_False by (apply Hne; by left).
  apply IH. intros x Hx. apply Hne. by right.
Qed.

Lemma label_blocks_count (images_of : string → list string)
    (folders : list string) : ∀ (k i : nat) folder,
  folders !! i = Some folder →
  length (filter (λ z, z = Z.of_nat (k + i)) (label_blocks images_of k folders))
  = length (images_of folder).
Proof.
  induction folders as [|f rest IH]; intros k i folder Hi; [done|].
  rewrite label_blocks_cons, filter_app, length_app.
  destruct i as [|i]; simplify_eq/=.
  - rewrite Nat.add_0_r, filter_replicate_eq, length_replicate.
    rewrite filter_none; [simpl; lia|].
    intros x Hx%label_blocks_lower. lia.
  - replace (k + S i)%nat with (S k + i)%nat by lia.
    rewrite (filter_none _ (replicate _ _)).
    + cbn [length Nat.add]. exact (IH (S k) i folder Hi).
    + intros x ->%elem_of_replicate_inv. lia.
Qed.

Lemma label_blocks_length (images_of : string → list string)
    (folders : list string) : ∀ k : nat,
  length (label_blocks images_of k folders)
  = sum_list_with (λ folder, length (images_of folder)) folders.
Proof.
  induction folders as [|f rest IH]; intros k; [done|].
  rewrite label_blocks_cons, length_app, length_replicate, IH. done.
Qed.

(** X10.  In the label sequence that is returned, the label [i] occurs
    exactly as often as the folder at position [i] of the
    lexicographically sorted folder names has images, and the sequences
    have as many entries as the folders have images.  In particular a class
    folder without images still takes its index: the labels of the classes
    after it are not renumbered. *)
Theorem label_counts (img_dir : string) (listing : list string)
    (images_of : string → list string) :
  os_listdir img_dir = Ok listing →
  NoDup listing →
  (∀ folder, folder ∈ listing →
     os_listdir (os_path_join img_dir [folder]) = Ok (images_of folder)) →
  ∃ folders paths labels,
    folders ≡ₚ listing ∧ Sorted String.le folders ∧
    create_image_list img_dir
    = Ok (match paths with
          | [] => NoColumns
          | _ :: _ => TwoColumns paths labels
          end) ∧
    length paths = length labels ∧
    length labels
    = sum_list_with (λ folder, length (images_of folder)) listing ∧
    ∀ (i : nat) folder, folders !! i = Some folder →
      length (filter (λ z, z = Z.of_nat i) labels)
      = length (images_of folder).
Proof.
  intros Hroot Hnd Hfolders.
  set (pairs := pairs_of img_dir images_of (label_map_of listing)
                         (sort listing)).
  assert (pairs.*2 = label_blocks images_of 0 (sort listing)) as Hblocks.
  { apply pairs_of_labels. intros i folder Hi.
    apply label_map_lookup; [done|]. by exists i. }
  exists (sort listing), pairs.*1, pairs.*2. split_and!.
  - apply sort_Permutation.
  - apply (Sorted_merge_sort String.le).
  - by apply (create_image_list_columns os_listdir).
  - by rewrite !length_fmap.
  - rewrite Hblocks, label_blocks_length. by rewrite sort_Permutation.
  - intros i folder Hi. rewrite Hblocks.
    by apply (label_blocks_count images_of (sort listing) 0 i folder).
Qed.

End EnumeratorCounts.

Section EnumeratorOrderAndFailure.
Import Py Enumerator.

Lemma labeled_images_ext (os1 os2 : string → result (list string))
    (img_dir : string) (label_map : gmap string Z) (folders : list string) :
  (∀ folder, folder ∈ folders →
     os1 (os_path_join img_dir [folder])
     = os2 (os_path_join img_dir [folder])) →
  labeled_images os1 img_dir label_map folders
  = labeled_images os2 img_dir label_map folders.
Proof.
  induction folders as [|folder rest IH]; intros Hsame; [done|].
  cbn [labeled_images]. unfold labeled_images_of.
  rewrite (Hsame folder) by left.
  rewrite IH; [done|]. intros f Hf. apply Hsame. by right.
Qed.

(** X11.  The result does not depend on the order in which the system lists
    the class folders: two systems that list the same folders of the root,
    in any order, and agree on the contents of the listed folders give the
    same label map and the same result, failures included. *)
Theorem listing_order_is_irrelevant (os1 os2 : string → result (list string))
    (img_dir : string) (listing1 listing2 : list string) :
  os1 img_dir = Ok listing1 → os2 img_dir = Ok listing2 →
  listing1 ≡ₚ listing2 →
  (∀ folder, folder ∈ listing1 →
     os1 (os_path_join img_dir [folder])
     = os2 (os_path_join img_dir [folder])) →
  label_map_of listing1 = label_map_of listing2 ∧
  create_image_list os1 img_dir = create_image_list os2 img_dir.
Proof.
  intros H1 H2 Hperm Hsame.
  pose proof (sort_unique _ _ Hperm) as Hsort.
  split; [unfold label_map_of; by rewrite Hsort|].
  unfold create_image_list. rewrite H1, H2.
  change (Ok ?l ≫= ?k) with (k l). cbv beta zeta.
  rewrite <- Hsort. rewrite (labeled_images_ext os1 os2); [done|].
  intros folder Hf. apply Hsame. by rewrite <- (sort_Permutation listing1).
Qed.

Variable os_listdir : string → result (list string).

(** The comprehension stops at the first folder that cannot be listed. *)
Lemma labeled_images_first_failure (img_dir : string)
    (label_map : gmap string Z) (before after : list string) (bad : string)
    (e : exn) :
  (∀ folder, folder ∈ before → is_Some (label_map !! folder)) →
  Forall (λ folder, is_ok (os_listdir (os_path_join img_dir [folder])) = true)
         before →
  os_listdir (os_path_join img_dir [bad]) = Raise e →
  labeled_images os_listdir img_dir label_map (before ++ bad :: after)
  = Raise e.
Proof.
  intros Hlabels Hbefore Hbad.
  induction Hbefore as [|f before Hf _ IH].
  - cbn [app labeled_images]. unfold labeled_images_of. by rewrite Hbad.
  - rewrite <- app_comm_cons. cbn [labeled_images].
    destruct (os_listdir (os_path_join img_dir [f])) as [images|e0] eqn:Hls;
      [|done].
    destruct (Hlabels f) as [label Hlabel]; [by left|].
    rewrite (labeled_images_of_ok os_listdir _ _ _ images label) by done.
    rewrite IH; [done|]. intros g Hg. apply Hlabels. by right.
Qed.

Lemma first_unlistable (img_dir : string) (folders : list string) :
  Exists (λ folder,
            is_ok (os_listdir (os_path_join img_dir [folder])) = false)
         folders →
  ∃ before bad after e, folders = before ++ bad :: after ∧
    Forall (λ folder,
              is_ok (os_listdir (os_path_join img_dir [folder])) = true)
           before ∧
    os_listdir (os_path_join img_dir [bad]) = Raise e.
Proof.
  induction folders as [|f rest IH]; intros Hex; [by inversion Hex|].
  destruct (os_listdir (os_path_join img_dir [f])) as [images|e] eqn:Hf.
  - apply Exists_cons in Hex as [Hhead|Htail]; [by rewrite Hf in Hhead|].
    destruct (IH Htail) as (before & bad & after & e & -> & Hbefore & Hbad).
    exists (f :: before), bad, after, e. split_and!; [done| |done].
    constructor; [by rewrite Hf|done].
  - by exists [], f, rest, e.
Qed.

(** X12.  Nothing is returned when an entry of the root cannot be listed
    (a plain file among the class folders, an unreadable folder):
    [create_image_list] raises the exception [os.listdir] raises for the
    unlistable entry that comes first in the lexicographic order of the
    names; every entry before it can be listed. *)
Theorem unlistable_entry_fails (img_dir : string) (listing : list string)
    (bad : string) (e : exn) :
  os_listdir img_dir = Ok listing →
  NoDup listing →
  bad ∈ listing →
  os_listdir (os_path_join img_dir [bad]) = Raise e →
  ∃ first e', first ∈ listing ∧
    os_listdir (os_path_join img_dir [first]) = Raise e' ∧
    String.le first bad ∧
    (∀ entry, entry ∈ listing → entry ≠ first → String.le entry first →
       is_ok (os_listdir (os_path_join img_dir [entry])) = true) ∧
    create_image_list os_listdir img_dir = Raise e'.
Proof.
  intros Hroot Hnd Hbad Hraise.
  destruct (first_unlistable img_dir (sort listing))
    as (before & first & after & e' & Hsplit & Hbefore & Hfirst).
  { apply Exists_exists. exists bad.
    split; [by rewrite sort_Permutation|by rewrite Hraise]. }
  pose proof (StronglySorted_merge_sort String.le listing) as Hsorted.
  fold (sort listing) in Hsorted. rewrite Hsplit in Hsorted.
  apply StronglySorted_app in Hsorted as (_ & _ & Hsorted).
  apply StronglySorted_cons in Hsorted as [Hafter _].
  rewrite Forall_forall in Hafter.
  assert (∀ entry, entry ∈ listing ↔ entry ∈ before ++ first :: after) as Hin.
  { intros entry. by rewrite <- Hsplit, sort_Permutation. }
  exists first, e'. split_and!.
  - apply Hin, elem_of_app. right. left.
  - done.
  - apply (proj1 (Hin bad)) in Hbad.
    apply elem_of_app in Hbad as [Hb|Hb].
    + rewrite Forall_forall in Hbefore. apply Hbefore in Hb.
      by rewrite Hraise in Hb.
    + apply elem_of_cons in Hb as [->|Hb]; [done|by apply Hafter].
  - intros entry Hentry Hne Hle. apply (proj1 (Hin entry)) in Hentry.
    apply elem_of_app in Hentry as [Hb|Hb].
    + rewrite Forall_forall in Hbefore. by apply Hbefore.
    + apply elem_of_cons in Hb as [->|Hb]; [done|].
      destruct Hne. by apply (anti_symm String.le); [|apply Hafter].
  - unfold create_image_list. rewrite Hroot.
    change (Ok ?l ≫= ?k) with (k l). cbv beta zeta.
    fold (label_map_of listing). rewrite Hsplit.
    rewrite (labeled_images_first_failure img_dir (label_map_of listing)
               before after first e'); [done| |done..].
    intros folder Hf.
    assert (folder ∈ listing) as Hl by (apply Hin, elem_of_app; by left).
    destruct (label_map_total listing folder Hnd Hl) as (i & _ & Hi).
    by exists (Z.of_nat i).
Qed.

(** In [mixed2] the plain file sorts before the unreadable folder (capital
    letters come first), so its exception is the one raised. *)
Example mixed2_raises_for_the_file :
  sort ["water"; "locked"; "README.md"]%string
  = ["README.md"; "locked"; "water"]%string ∧
  create_image_list Scenario.mixed2_listdir "mixed2"
  = Raise Scenario.NotADirectoryError.
Proof. split; by vm_compute. Qed.

End EnumeratorOrderAndFailure.

(** ** The epoch callback *)
Section CallbackFacts.
Import Py Callback.

Lemma on_epoch_end_both (logs : gmap string Qc) (history : list logged) :
  is_Some (logs !! "acc"%string) → is_Some (logs !! "val_acc"%string) →
  on_epoch_end logs history = (history ++ entries_of logs, Ok ()).
Proof.
  intros [acc Hacc] [val_acc Hval]. unfold on_epoch_end, entries_of.
  rewrite Hacc, Hval. simpl. by rewrite <- app_assoc.
Qed.

(** X14.  Over a [fit] whose epochs all report both accuracies the callback logs
    exactly two metrics per epoch, [training_acc] then [validation_acc], in
    the order of the epochs, after what the run held before. *)
Theorem callback_logs_two_metrics_per_epoch (epochs : list (gmap string Qc))
    (history : list logged) :
  Forall (λ logs, is_Some (logs !! "acc"%string) ∧
                  is_Some (logs !! "val_acc"%string)) epochs →
  on_epochs epochs history = (history ++ (epochs ≫= entries_of), Ok ()) ∧
  length (epochs ≫= entries_of) = (2 * length epochs)%nat ∧
  metric_name <$> (epochs ≫= entries_of)
  = (epochs ≫= λ _, ["training_acc"; "validation_acc"]%string).
Proof.
  intros Hall. split; [|split].
  - revert history. induction Hall as [|logs epochs [Hacc Hval] _ IH];
      intros history.
    + simpl. by rewrite app_nil_r.
    + cbn [on_epochs]. rewrite on_epoch_end_both by done.
      rewrite IH, bind_cons. by rewrite <- app_assoc.
  - induction Hall as [|logs epochs [[acc Hacc] [val_acc Hval]] _ IH]; [done|].
    rewrite bind_cons, length_app, IH. unfold entries_of.
    rewrite Hacc, Hval. simpl. lia.
  - induction Hall as [|logs epochs [[acc Hacc] [val_acc Hval]] _ IH]; [done|].
    rewrite !bind_cons, fmap_app, IH. unfold entries_of.
    by rewrite Hacc, Hval.
Qed.

(** X15.  When an epoch's [logs] lack a metric, [float(None)] raises
    [TypeError] and the fit stops there: without ['acc'] nothing of that
    epoch is logged; with ['acc'] but without ['val_acc'] (a fit without
    validation data) the training accuracy of that epoch is logged and the
    validation accuracy is not.  Later epochs are never logged. *)
Theorem callback_stops_at_missing_metric (before after : list (gmap string Qc))
    (logs : gmap string Qc) (history : list logged) :
  Forall (λ logs, is_Some (logs !! "acc"%string) ∧
                  is_Some (logs !! "val_acc"%string)) before →
  logs !! "acc"%string = None ∨ logs !! "val_acc"%string = None →
  on_epochs (before ++ logs :: after) history
  = (history ++ (before ≫= entries_of)
       ++ match logs !! "acc"%string with
          | Some acc => [Logged "training_acc" acc]
          | None => []
          end,
     Raise TypeError).
Proof.
  intros Hall Hmissing. revert history.
  induction Hall as [|first before [Hacc Hval] _ IH]; intros history.
  - cbn [app on_epochs]. unfold on_epoch_end.
    destruct (logs !! "acc"%string) as [acc|] eqn:Hacc; simpl.
    + destruct Hmissing as [?|Hval]; [done|]. by rewrite Hval.
    + by rewrite app_nil_r.
  - rewrite <- app_comm_cons. cbn [on_epochs].
    rewrite on_epoch_end_both by done.
    rewrite IH, bind_cons. by rewrite <- !app_assoc.
Qed.

End CallbackFacts.

(** ** Failures while a compute target is created *)
Section ComputeSetupFailures.
Import Py ComputeSetup.
Context {Target : Type}.
Variable lookup : string → result Target.
Variable create : string → provisioning → result Target.
Variable wait_for_completion : Target → result unit.
Variable name_of : Target → string.
Variable is_batchai : Target → bool.
Variable status_of : Target → string.

Local Ltac run_cell :=
  unfold run, setup_dsvm, setup_batchai, try_except, print, call;
  unfold mbind, cell_bind, mret, cell_ret; cbn beta iota zeta.

(** X16.  There is no retry and no second handler: in both notebooks the lookup
    is the first call and [create] is called at most once; when the target
    is not found, the cell ends as [create] followed by
    [wait_for_completion] ends, so a failure of either reaches the top
    level, and after a failed [create] nothing is waited for. *)
Theorem creation_failures_propagate (ws_name : string) :
  let once (name : string) (outcome : list event * result Target) :=
    outcome.1 !! 0%nat = Some (Lookup name) ∧
    (length (List.filter is_create outcome.1) ≤ 1)%nat ∧
    ∀ e config, lookup name = Raise e →
      isinstance e "ComputeTargetException" = true →
      In (Create name config) outcome.1 →
      outcome.2 = (target ← create name config ;
                   _ ← wait_for_completion target ; Ok target) ∧
      (is_ok (create name config) = false →
       ¬ In WaitForCompletion outcome.1) in
  once "gpudsvm"%string
       (run (setup_dsvm lookup create wait_for_completion name_of)) ∧
  once (ws_name +:+ "gpucls")%string
       (run (setup_batchai lookup create wait_for_completion is_batchai
               status_of ws_name)).
Proof.
  intros once. unfold once. split.
  - run_cell. destruct (lookup "gpudsvm") as [target|e] eqn:Hfound.
    + cbn. split_and!; [done|lia|]. by intros ex cfg [=].
    + cbn. destruct (isinstance e "ComputeTargetException") eqn:Hcls.
      * destruct (create _ _) as [made|e1] eqn:Hmade; cbn.
        -- destruct (wait_for_completion made) as [[]|e2] eqn:Hwait; cbn;
             (split_and!; [done|lia|]);
             intros ex cfg [= <-] _ [[=]|[[= <-]|[[=]|[]]]];
             rewrite Hmade; cbn; by rewrite Hwait.
        -- split_and!; [done|lia|].
           intros ex cfg [= <-] _ [[=]|[[= <-]|[]]].
           rewrite Hmade. split; [done|]. intros _ [[=]|[[=]|[]]].
      * cbn. split_and!; [done|lia|]. intros ex cfg [= <-]. congruence.
  - run_cell.
    destruct (lookup (ws_name +:+ "gpucls")) as [target|e] eqn:Hfound.
    + destruct (is_batchai target); cbn; (split_and!; [done|lia|]);
        by intros ex cfg [=].
    + cbn. destruct (isinstance e "ComputeTargetException") eqn:Hcls.
      * cbn. destruct (create _ _) as [made|e1] eqn:Hmade; cbn.
        -- destruct (wait_for_completion made) as [[]|e2] eqn:Hwait; cbn;
             (split_and!; [done|lia|]);
             intros ex cfg [= <-] _ Hin;
             repeat (destruct Hin as [Hin|Hin]; [try discriminate Hin|]);
             try (by destruct Hin);
             injection Hin as <-; rewrite Hmade; cbn; by rewrite Hwait.
        -- split_and!; [done|lia|].
           intros ex cfg [= <-] _ Hin.
           repeat (destruct Hin as [Hin|Hin]; [try discriminate Hin|]);
             try (by destruct Hin).
           injection Hin as <-. rewrite Hmade. split; [done|].
           intros _ Hw.
           repeat (destruct Hw as [Hw|Hw]; [discriminate Hw|]). done.
      * cbn. split_and!; [done|lia|]. intros ex cfg [= <-]. congruence.
Qed.

End ComputeSetupFailures.

(** ** The parameters the notebooks pass and the flags of the script *)
Section SubmissionFacts.
Import Submission.

Lemma run_params_well_formed :
  Forall (λ c, forallb (well_formed TrainScript.flags_tune) (run_params c)
               = true)
         (HyperDrive.grid HyperDrive.ps).
Proof. apply (bool_decide_unpack _). by vm_compute. Qed.

Lemma run_params_keys (c : HyperDrive.combination) :
  c ∈ HyperDrive.grid HyperDrive.ps →
  (run_params c).*1
  = ["--data_folder"; "--epochs"; "--units"; "--l1"; "--l2"]%string.
Proof.
  intros Hc.
  assert (Forall (λ c, (run_params c).*1
            = ["--data_folder"; "--epochs"; "--units"; "--l1"; "--l2"]%string)
            (HyperDrive.grid HyperDrive.ps)) as Hall.
  { apply (bool_decide_unpack _). by vm_compute. }
  rewrite Forall_forall in Hall. by apply Hall.
Qed.

(** X17.  Every parameter the notebooks pass to [train.py] is a flag the script
    defines, with a value of the flag's type, and no flag is passed twice:
    for the single run of the training notebook and for every combination
    of the grid of the tuning notebook, where no sampled hyperparameter
    is also fixed by the estimator.  Both notebooks set the same five
    flags; the batch size and the two file names keep their defaults. *)
Theorem passed_parameters_are_flags (c : HyperDrive.combination) :
  c ∈ HyperDrive.grid HyperDrive.ps →
  forallb (well_formed TrainScript.flags_train) script_params_train = true ∧
  NoDup script_params_train.*1 ∧
  forallb (well_formed TrainScript.flags_tune) (run_params c) = true ∧
  NoDup (run_params c).*1 ∧
  (run_params c).*1 ≡ₚ (script_params_train.*1) ∧
  Forall (λ name, name ∉ (c.*1)) (script_params_tune.*1) ∧
  Forall (λ name, (name ∉ (run_params c).*1) ∧
                  (name ∉ script_params_train.*1))
         ["--batch_size"; "--train_file_name"; "--valid_file_name"]%string.
Proof.
  intros Hc.
  pose proof run_params_well_formed as Hall. rewrite Forall_forall in Hall.
  pose proof (run_params_keys c Hc) as Hkeys.
  assert (c.*1 = ["--units"; "--l1"; "--l2"]%string) as Hsampled.
  { unfold run_params in Hkeys. rewrite fmap_app in Hkeys.
    cbn [fmap list_fmap script_params_tune fst app] in Hkeys.
    injection Hkeys as Hkeys. rewrite <- Hkeys.
    rewrite <- list_fmap_compose. apply list_fmap_ext. by intros _ [] _. }
  split; [by vm_compute|].
  split; [apply (bool_decide_unpack _); by vm_compute|].
  split; [by apply Hall|]. rewrite Hkeys, Hsampled.
  split; [apply (bool_decide_unpack _); by vm_compute|].
  split.
  { apply NoDup_Permutation.
    - apply (bool_decide_unpack _). by vm_compute.
    - apply (bool_decide_unpack _). by vm_compute.
    - intros name. cbn. rewrite !elem_of_cons, !elem_of_nil. tauto. }
  split; apply (bool_decide_unpack _); by vm_compute.
Qed.

End SubmissionFacts.

(** ** The further theorems at concrete inputs *)

Lemma getitem_reaches_the_tail_witness :
  0 < Generator.batch_size Scenario.five_by_two ∧
  Generator.preprocess_fn Scenario.five_by_two = None ∧
  Generator.pathnames_of Scenario.five_by_two 2 = ["e.png"%string] ∧
  Py.len ["e.png"%string] = 1 ∧
  (Forall (λ p, Py.is_ok (Scenario.load_all_but_e p) = true)
          ["e.png"%string] →
   ∃ images,
     Forall2 (Generator.loads Scenario.load_all_but_e id)
             ["e.png"%string] images ∧
     Py.len images = 1 ∧
     Generator.__getitem__ Scenario.load_all_but_e id Scenario.five_by_two 2
     = Py.Ok images) ∧
  (∀ before bad after e,
     ["e.png"%string] = before ++ bad :: after →
     Forall (λ p, Py.is_ok (Scenario.load_all_but_e p) = true) before →
     Scenario.load_all_but_e bad = Py.Raise e →
     Generator.__getitem__ Scenario.load_all_but_e id Scenario.five_by_two 2
     = Py.Raise e).
Proof.
  split; [reflexivity|]. split; [reflexivity|].
  apply (getitem_reaches_the_tail Scenario.load_all_but_e id
           Scenario.five_by_two); reflexivity.
Defined.

Lemma getitem_beyond_the_list_witness :
  Generator.preprocess_fn Scenario.five_by_two = None ∧
  Generator.pathnames_of Scenario.five_by_two 3 = [] ∧
  Generator.__getitem__ Scenario.load_none id Scenario.five_by_two 3
  = Py.Ok [].
Proof.
  split; [reflexivity|].
  apply (getitem_beyond_the_list Scenario.load_none id Scenario.five_by_two 3).
  - reflexivity.
  - vm_compute. discriminate.
  - reflexivity.
Defined.

Lemma getitem_minus_one_is_empty_witness :
  Generator.preprocess_fn Scenario.five_by_two = None ∧
  Generator.pathnames_of Scenario.five_by_two (-1) = [] ∧
  Generator.__getitem__ Scenario.load_none id Scenario.five_by_two (-1)
  = Py.Ok [].
Proof.
  split; [reflexivity|].
  apply (getitem_minus_one_is_empty Scenario.load_none id
           Scenario.five_by_two).
  reflexivity.
Defined.

Lemma zero_batch_size_witness :
  Generator.__len__ Scenario.five_by_zero = Py.Raise Py.ZeroDivisionError ∧
  Generator.emitted_batches Scenario.load_any id Scenario.five_by_zero
  = Py.Raise Py.ZeroDivisionError ∧
  ∀ i, Generator.pathnames_of Scenario.five_by_zero i = [].
Proof.
  apply (zero_batch_size Scenario.load_any id Scenario.five_by_zero).
  reflexivity.
Defined.

Lemma extract_feature_count_witness :
  ∃ features,
    Generator.extract Scenario.load_any id id id Scenario.images_130
    = Py.Ok features ∧
    Py.len features = 128 ∧
    Py.len features `mod` 64 = 0 ∧
    130 - Py.len features = 2 ∧
    0 ≤ 130 - Py.len features < 64.
Proof.
  apply (extract_feature_count Scenario.load_any id id id
           Scenario.images_130).
  - intros images. reflexivity.
  - intros batch. reflexivity.
  - apply Forall_forall. intros p _. reflexivity.
Defined.

Lemma extract_of_short_list_witness :
  Py.len Scenario.images_5 < 64 ∧
  Generator.extract Scenario.load_none id id id Scenario.images_5 = Py.Ok [].
Proof.
  split; [reflexivity|].
  apply (extract_of_short_list Scenario.load_none id id id Scenario.images_5).
  reflexivity.
Defined.

Lemma training_rows_keep_their_labels_witness :
  ∃ d, Sandbox.featurize Scenario.load_any id (fmap id) (fmap id)
         Scenario.split_426 = Py.Ok d ∧
    Sandbox.ds_train_features d
    = id <$> take 320 (Sandbox.train_imgs Scenario.split_426) ∧
    Sandbox.ds_train_labels d
    = take 320 (Sandbox.train_labels Scenario.split_426) ∧
    length (Sandbox.ds_train_labels d) = length (Sandbox.ds_train_features d) ∧
    ∀ (j : nat) feature, Sandbox.ds_train_features d !! j = Some feature →
      ∃ p label, Sandbox.train_imgs Scenario.split_426 !! j = Some p ∧
                 feature = id p ∧
                 Sandbox.train_labels Scenario.split_426 !! j = Some label ∧
                 Sandbox.ds_train_labels d !! j = Some label.
Proof.
  apply (training_rows_keep_their_labels Scenario.load_any id id id id
           Scenario.split_426).
  - intros p. reflexivity.
  - reflexivity.
Defined.

Lemma steps_cover_the_features_witness :
  ∃ d steps_per_epoch validation_steps,
    Sandbox.featurize Scenario.load_any id id id Scenario.split_426
    = Py.Ok d ∧
    Training.steps (Sandbox.ds_train_features d) (Sandbox.ds_valid_features d)
    = Py.Ok (steps_per_epoch, validation_steps) ∧
    steps_per_epoch = 5 ∧ validation_steps = 1 ∧
    64 * steps_per_epoch = Py.len (Sandbox.ds_train_features d) ∧
    64 * validation_steps = Py.len (Sandbox.ds_valid_features d).
Proof.
  apply (steps_cover_the_features Scenario.load_any id id id
           Scenario.split_426).
  - intros images. reflexivity.
  - intros batch. reflexivity.
  - intros p. reflexivity.
Defined.

Lemma aerial_entry_names (folder : string) :
  folder ∈ ["water"; "forest"]%string →
  Paths.entry_name folder = true ∧
  NoDup (Scenario.aerial_images_of folder) ∧
  ∀ image, image ∈ Scenario.aerial_images_of folder →
           Paths.entry_name image = true.
Proof.
  intros [->|[->|[]%elem_of_nil]%elem_of_cons]%elem_of_cons.
  - split; [reflexivity|]. split.
    + apply (bool_decide_unpack _). vm_compute. exact I.
    + apply Forall_forall. apply (bool_decide_unpack _). vm_compute. exact I.
  - split; [reflexivity|]. split.
    + apply (bool_decide_unpack _). vm_compute. exact I.
    + apply Forall_forall. apply (bool_decide_unpack _). vm_compute. exact I.
Defined.

Lemma image_paths_distinct_witness :
  ∃ pairs,
    Enumerator.create_image_list Scenario.aerial_listdir "aerial"
    = Py.Ok (Py.zip_star pairs) ∧
    NoDup pairs.*1 ∧
    ∀ path, path ∈ pairs.*1
      ↔ ∃ folder image, folder ∈ ["water"; "forest"]%string ∧
          image ∈ Scenario.aerial_images_of folder ∧
          path = ("aerial/" +:+ folder +:+ "/" +:+ image)%string.
Proof.
  apply (image_paths_distinct Scenario.aerial_listdir "aerial"
           ["water"; "forest"]%string Scenario.aerial_images_of).
  - reflexivity.
  - exact water_forest_NoDup.
  - exact aerial_folders_listed.
  - exact aerial_entry_names.
Defined.

Lemma label_counts_witness :
  ∃ folders paths labels,
    folders ≡ₚ ["water"; "forest"]%string ∧ Sorted String.le folders ∧
    Enumerator.create_image_list Scenario.aerial_listdir "aerial"
    = Py.Ok (match paths with
             | [] => Py.NoColumns
             | _ :: _ => Py.TwoColumns paths labels
             end) ∧
    length paths = length labels ∧
    length labels = 8%nat ∧
    ∀ (i : nat) folder, folders !! i = Some folder →
      length (filter (λ z, z = Z.of_nat i) labels)
      = length (Scenario.aerial_images_of folder).
Proof.
  apply (label_counts Scenario.aerial_listdir "aerial"
           ["water"; "forest"]%string Scenario.aerial_images_of).
  - reflexivity.
  - exact water_forest_NoDup.
  - exact aerial_folders_listed.
Defined.

Lemma listing_order_is_irrelevant_witness :
  Enumerator.label_map_of ["water"; "forest"]%string
  = Enumerator.label_map_of ["forest"; "water"]%string ∧
  Enumerator.create_image_list Scenario.aerial_listdir "aerial"
  = Enumerator.create_image_list Scenario.aerial_listdir_rev "aerial".
Proof.
  apply (listing_order_is_irrelevant Scenario.aerial_listdir
           Scenario.aerial_listdir_rev "aerial"
           ["water"; "forest"]%string ["forest"; "water"]%string).
  - reflexivity.
  - reflexivity.
  - apply Permutation_swap.
  - intros folder [->|[->|[]%elem_of_nil]%elem_of_cons]%elem_of_cons;
      reflexivity.
Defined.

Lemma unlistable_entry_fails_witness :
  ∃ first e', first ∈ ["water"; "locked"; "README.md"]%string ∧
    Scenario.mixed2_listdir (Py.os_path_join "mixed2" [first]) = Py.Raise e' ∧
    String.le first "locked" ∧
    (∀ entry, entry ∈ ["water"; "locked"; "README.md"]%string →
       entry ≠ first → String.le entry first →
       Py.is_ok (Scenario.mixed2_listdir (Py.os_path_join "mixed2" [entry]))
       = true) ∧
    Enumerator.create_image_list Scenario.mixed2_listdir "mixed2"
    = Py.Raise e'.
Proof.
  apply (unlistable_entry_fails Scenario.mixed2_listdir "mixed2"
           ["water"; "locked"; "README.md"]%string "locked"
           Scenario.PermissionError).
  - reflexivity.
  - apply (bool_decide_unpack _). vm_compute. exact I.
  - apply (bool_decide_unpack _). vm_compute. exact I.
  - reflexivity.
Defined.

Lemma callback_logs_two_metrics_per_epoch_witness :
  Callback.on_epochs [Scenario.logs_full; Scenario.logs_full] []
  = ([] ++ ([Scenario.logs_full; Scenario.logs_full] ≫= Callback.entries_of),
     Py.Ok ()) ∧
  length ([Scenario.logs_full; Scenario.logs_full] ≫= Callback.entries_of)
  = 4%nat ∧
  Callback.metric_name
    <$> ([Scenario.logs_full; Scenario.logs_full] ≫= Callback.entries_of)
  = ["training_acc"; "validation_acc";
     "training_acc"; "validation_acc"]%string.
Proof.
  apply (callback_logs_two_metrics_per_epoch
           [Scenario.logs_full; Scenario.logs_full] []).
  apply (bool_decide_unpack _). vm_compute. exact I.
Defined.

Lemma callback_stops_at_missing_metric_witness :
  Callback.on_epochs
    ([Scenario.logs_full] ++ Scenario.logs_train_only :: [Scenario.logs_full])
    []
  = ([] ++ ([Scenario.logs_full] ≫= Callback.entries_of)
        ++ [Callback.Logged "training_acc" (Q2Qc (9 # 10))],
     Py.Raise Callback.TypeError).
Proof.
  apply (callback_stops_at_missing_metric [Scenario.logs_full]
           [Scenario.logs_full] Scenario.logs_train_only []).
  - apply (bool_decide_unpack _). vm_compute. exact I.
  - right. reflexivity.
Defined.

Lemma first_combination_in_grid :
  Scenario.first_combination ∈ HyperDrive.grid HyperDrive.ps.
Proof. apply (bool_decide_unpack _). vm_compute. exact I. Defined.

Lemma passed_parameters_are_flags_witness :
  forallb (Submission.well_formed TrainScript.flags_train)
          Submission.script_params_train = true ∧
  NoDup Submission.script_params_train.*1 ∧
  forallb (Submission.well_formed TrainScript.flags_tune)
          (Submission.run_params Scenario.first_combination) = true ∧
  NoDup (Submission.run_params Scenario.first_combination).*1 ∧
  (Submission.run_params Scenario.first_combination).*1
    ≡ₚ (Submission.script_params_train.*1) ∧
  Forall (λ name, name ∉ (Scenario.first_combination.*1))
         (Submission.script_params_tune.*1) ∧
  Forall (λ name,
            (name ∉ (Submission.run_params Scenario.first_combination).*1) ∧
            (name ∉ Submission.script_params_train.*1))
         ["--batch_size"; "--train_file_name"; "--valid_file_name"]%string.
Proof.
  apply (passed_parameters_are_flags Scenario.first_combination).
  exact first_combination_in_grid.
Defined.
